(** * rescuelink-backend: incident lifecycle, assignment and notifier

    A shallow embedding of the route handlers of the alerts, crash-event,
    SOS and combined-incident routers and of the socket instance module.

    Conventions of the embedding:
    - a JSON value as parsed by the HTTP layer is [json]; numbers are
      rationals (every JSON number literal is one);
    - a JavaScript value that is not JSON (the Socket.io server object) is
      an [Obj] reference of [jsval]; [undefined] is [Undef];
    - a database row is a [gmap string json] from column names to values;
      a table is a [gmap Z row] keyed by the serial primary key;
    - a handler runs in [M], a state-and-exception monad over [world]; a
      [throw] is caught by the handler's [catch] block, which answers 500
      with the error's message and keeps every write already done. *)

From Stdlib Require Import QArith Qround Qabs Lqa Ascii.
From stdpp Require Import gmap strings list fin_maps.

Local Open Scope Z_scope.
Local Set Warnings "-register-all".

(** ** JSON and JavaScript values *)

Inductive json :=
| JNull
| JBool (b : bool)
| JNum (q : Q)
| JStr (s : string)
| JArr (l : list json)
| JObj (l : list (string * json)).

Inductive jsval :=
| Undef
| Json (j : json)
| Obj (ref : positive).

(** JavaScript truthiness ([!!v]) of a JSON value; JSON has no NaN. *)
Definition json_truthy (j : json) : bool :=
  match j with
  | JNull => false
  | JBool b => b
  | JNum q => negb (Qeq_bool q 0)
  | JStr s => negb (String.eqb s "")
  | JArr _ | JObj _ => true
  end.

Definition truthy (v : jsval) : bool :=
  match v with
  | Undef => false
  | Json j => json_truthy j
  | Obj _ => true
  end.

(** A property read [o.k] on a parsed body or a row: [undefined] when the
    key is absent. *)
Definition prop (o : gmap string json) (k : string) : jsval :=
  match o !! k with
  | Some j => Json j
  | None => Undef
  end.

(** Strict equality [===].  Two arrays or objects are identical only when
    they are the same reference; values parsed or read separately never
    are. *)
Definition json_strict_eq (a b : json) : bool :=
  match a, b with
  | JNull, JNull => true
  | JBool x, JBool y => Bool.eqb x y
  | JNum x, JNum y => Qeq_bool x y
  | JStr x, JStr y => String.eqb x y
  | _, _ => false
  end.

Definition strict_eq (a b : jsval) : bool :=
  match a, b with
  | Undef, Undef => true
  | Json x, Json y => json_strict_eq x y
  | Obj r1, Obj r2 => Pos.eqb r1 r2
  | _, _ => false
  end.

(** [typeof v === 'number'] *)
Definition is_number (v : jsval) : bool :=
  match v with Json (JNum _) => true | _ => false end.

(** [a || b] *)
Definition js_or (a b : jsval) : jsval := if truthy a then a else b.

(** ** The socket instance module (socketInstance.js)

    [let io;] is a module-level binding, [undefined] until [setIO] runs. *)

Module Socket.

Definition state := jsval.

Definition initial : state := Undef.

(** [setIO = (newIO) => { io = newIO; }] *)
Definition setIO (newIO : jsval) (_ : state) : state := newIO.

(** [getIO]: throws when [io] is falsy, else returns it. *)
Definition getIO (io : state) : string + jsval :=
  if negb (truthy io) then inl "Socket.io not initialized"%string
  else inr io.

(** The calls a process makes on the module, in order. *)
Inductive call := CSet (v : jsval) | CGet.

(** Runs a sequence of calls, collecting the outcome of each [getIO]. *)
Fixpoint run (io : state) (cs : list call) : list (string + jsval) :=
  match cs with
  | [] => []
  | CSet v :: cs' => run (setIO v io) cs'
  | CGet :: cs' => getIO io :: run io cs'
  end.

End Socket.

(** ** The store

    Rows, tables and the vehicles table projected on its [status] column,
    the only column the handlers write there. *)

Abbreviation row := (gmap string json).

(** A table: its rows by primary key and the next value of its serial
    sequence. *)
Record table := mkTable { rows : gmap Z row; serial : Z }.

Inductive tbl := TAlerts | TCrash | TSos.

Definition tbl_name (t : tbl) : string :=
  match t with
  | TAlerts => "alerts" | TCrash => "crash_events" | TSos => "sos_requests"
  end.

(** Observable effects, in the order the handler issues them. *)
Inductive effect :=
| RowWrite (t : tbl) (id : Z)
| VehicleWrite (v : jsval) (status : string)
| Emit (event : string) (payload : row).

Record world := mkWorld {
  alerts : table;
  crash_events : table;
  sos_requests : table;
  vehicles : gmap Z string;
  io : Socket.state;
  log : list effect }.

Definition get_table (w : world) (t : tbl) : table :=
  match t with
  | TAlerts => alerts w | TCrash => crash_events w | TSos => sos_requests w
  end.

Definition set_table (w : world) (t : tbl) (x : table) : world :=
  match t with
  | TAlerts => mkWorld x (crash_events w) (sos_requests w) (vehicles w) (io w) (log w)
  | TCrash => mkWorld (alerts w) x (sos_requests w) (vehicles w) (io w) (log w)
  | TSos => mkWorld (alerts w) (crash_events w) x (vehicles w) (io w) (log w)
  end.

Definition set_vehicles (w : world) (vs : gmap Z string) : world :=
  mkWorld (alerts w) (crash_events w) (sos_requests w) vs (io w) (log w).

Definition push_log (w : world) (e : effect) : world :=
  mkWorld (alerts w) (crash_events w) (sos_requests w) (vehicles w) (io w)
    (log w ++ [e]).

(** ** The handler monad: state and a thrown error message *)

Definition M (A : Type) := world -> (string + A) * world.

Definition ret {A} (a : A) : M A := fun w => (inr a, w).

Definition bind {A B} (m : M A) (k : A -> M B) : M B :=
  fun w => match m w with
           | (inl e, w') => (inl e, w')
           | (inr a, w') => k a w'
           end.

Definition throw {A} (e : string) : M A := fun w => (inl e, w).

Notation "'let*' x ':=' m 'in' k" := (bind m (fun x => k))
  (at level 200, x name, m at level 100, k at level 200).

Definition when (b : bool) (m : M unit) : M unit := if b then m else ret tt.

(** ** The hosted database client

    [.single()] fails unless exactly one row is selected; this is the
    error the handlers rethrow. *)

Definition single_error : string :=
  "JSON object requested, multiple (or no) rows returned".

(** The integer key an [.eq('id', v)] filter denotes; a value that is
    not an integer matches no row. *)
Definition as_key (v : jsval) : option Z :=
  match v with
  | Json (JNum q) =>
      if Z.eqb (Z.modulo (Qnum q) (Zpos (Qden q))) 0
      then Some (Qnum q / Zpos (Qden q)) else None
  | _ => None
  end.

(** [from(t).select(..).eq('id', id).single()] *)
Definition select_single (t : tbl) (id : Z) : M row :=
  fun w => match rows (get_table w t) !! id with
           | Some r => (inr r, w)
           | None => (inl single_error, w)
           end.

(** [from(t).update(patch).eq('id', id).select().single()]: the columns of
    [patch] overwrite those of the row; no row, no write and an error. *)
Definition update_single (t : tbl) (id : Z) (patch : row) : M row :=
  fun w => match rows (get_table w t) !! id with
           | Some r =>
               let r' := patch ∪ r in
               let tb := get_table w t in
               (inr r', push_log (set_table w t (mkTable (<[id := r']> (rows tb)) (serial tb)))
                          (RowWrite t id))
           | None => (inl single_error, w)
           end.

(** [from(t).insert([payload]).select(..).single()]: the store assigns the
    next serial id; columns absent from [payload] keep their default. *)
Definition insert_single (t : tbl) (payload : row) : M row :=
  fun w => let tb := get_table w t in
           let id := serial tb in
           let r := <["id" := JNum (inject_Z id)]> payload in
           (inr r, push_log (set_table w t (mkTable (<[id := r]> (rows tb)) (id + 1)))
                     (RowWrite t id)).

(** [from('vehicles').update({ status: s }).eq('id', v)]: issued and
    awaited; its error result is never thrown by the callers. *)
Definition update_vehicle (v : jsval) (s : string) : M unit :=
  fun w => let w1 := push_log w (VehicleWrite v s) in
           match as_key v with
           | Some k =>
               match vehicles w1 !! k with
               | Some _ => (inr tt, set_vehicles w1 (<[k := s]> (vehicles w1)))
               | None => (inr tt, w1)
               end
           | None => (inr tt, w1)
           end.

(** [const io = getIO(); io.emit(ev, payload);] *)
Definition broadcast (ev : string) (payload : row) : M unit :=
  fun w => match Socket.getIO (io w) with
           | inl e => (inl e, w)
           | inr (Obj _) => (inr tt, push_log w (Emit ev payload))
           | inr _ => (inl "io.emit is not a function"%string, w)
           end.

(** [row[k] = v] as [JSON.stringify] sends it: an [undefined] value drops
    the key. *)
Definition put (k : string) (v : jsval) (r : row) : row :=
  match v with
  | Json j => <[k := j]> r
  | _ => r
  end.

(** ** Requests and replies *)

(** [req.user], decoded from the bearer token by the auth middleware. *)
Record actor := mkActor { uid : Z; role : string }.

Definition uid_json (a : actor) : jsval := Json (JNum (inject_Z (uid a))).

(** An entry of the combined incident list (routes of part_003). *)
Record item := mkItem {
  source : string;
  item_id : jsval;
  userId : jsval;
  item_status : jsval;
  timestamp : jsval;
  latitude : jsval;
  longitude : jsval;
  data : row }.

Inductive payload :=
| PPage (data : list item) (total : Z) (limit offset : option Z) (returned : Z)
| PMessage (message : string)
| PRow (r : row)
| PRows (rs : list row)
| PWrapped (message : string) (key : string) (r : row).

Record reply := Reply { code : Z; body : payload }.

Definition role_in (a : actor) (roles : list string) : bool :=
  existsb (String.eqb (role a)) roles.

(** The [catch] block of the alerts and SOS handlers:
    [res.status(500).json({ message: error.message || 'Server error' })]. *)
Definition catch_500 (m : M reply) (w : world) : reply * world :=
  match m w with
  | (inl e, w') =>
      (Reply 500 (PMessage (if String.eqb e "" then "Server error" else e)), w')
  | (inr r, w') => (r, w')
  end.

(** The [catch] block of the crash-event handlers:
    [res.status(500).json({ message: error.message })]. *)
Definition catch_500_raw (m : M reply) (w : world) : reply * world :=
  match m w with
  | (inl e, w') => (Reply 500 (PMessage e), w')
  | (inr r, w') => (r, w')
  end.

(** ** The alerts router: PATCH /:id/status *)

Definition validStatuses : list string :=
  ["pending"; "responding"; "resolved"; "cancelled"].

Definition updateStatus (a : actor) (id : Z) (req_body : row) (now : string)
  : world -> reply * world :=
  catch_500 (
    let status := prop req_body "status" in
    match status with
    | Json (JStr s) =>
      if negb (existsb (String.eqb s) validStatuses)
      then ret (Reply 400 (PMessage "Invalid status")) else
      if negb (role_in a ["admin"; "dispatcher"; "rescuer"])
      then ret (Reply 403 (PMessage "Access denied")) else
      let updateData := <["status" := JStr s]> {[ "updated_at" := JStr now ]} in
      let* data := update_single TAlerts id updateData in
      let v := prop data "assigned_vehicle_id" in
      let* _ := when (String.eqb s "responding" && truthy v)
                  (update_vehicle v "responding") in
      let* _ := when (String.eqb s "resolved" && truthy v)
                  (update_vehicle v "available") in
      let* _ := broadcast "alert:status_updated" data in
      ret (Reply 200 (PRow data))
    | _ => ret (Reply 400 (PMessage "Invalid status"))
    end).

(** ** The alerts router: PATCH /:id/assign *)

Definition assign (a : actor) (id : Z) (req_body : row) (now : string)
  : world -> reply * world :=
  catch_500 (
    let vehicle_id := prop req_body "vehicle_id" in
    let responder_id := prop req_body "responder_id" in
    if negb (role_in a ["admin"; "dispatcher"])
    then ret (Reply 403 (PMessage "Access denied")) else
    let* currentAlert := select_single TAlerts id in
    let cur := prop currentAlert "assigned_vehicle_id" in
    let updateData :=
      put "assigned_vehicle_id" (js_or vehicle_id (Json JNull))
        (put "assigned_responder_id" (js_or responder_id (Json JNull))
           {[ "updated_at" := JStr now ]}) in
    let* updatedAlert := update_single TAlerts id updateData in
    let* _ := when (truthy cur && negb (strict_eq cur vehicle_id))
                (update_vehicle cur "available") in
    let* _ := when (truthy vehicle_id) (update_vehicle vehicle_id "assigned") in
    let* _ := broadcast "alert:assigned" updatedAlert in
    ret (Reply 200 (PRow updatedAlert))).

(** ** The alerts router: PUT /:id

    [{ ...req.body, updated_at }]; the loop deleting [undefined] entries
    removes nothing from a parsed JSON body. *)
Definition updateAlert (a : actor) (id : Z) (req_body : row) (now : string)
  : world -> reply * world :=
  catch_500 (
    if negb (role_in a ["admin"; "dispatcher"])
    then ret (Reply 403 (PMessage "Access denied")) else
    let updateData := <["updated_at" := JStr now]> req_body in
    let* data := update_single TAlerts id updateData in
    let* _ := broadcast "alert:updated" data in
    ret (Reply 200 (PRow data))).

(** ** The alerts router: GET /:id *)

Definition getAlert (a : actor) (id : Z) : world -> reply * world :=
  catch_500 (
    let* data := select_single TAlerts id in
    if String.eqb (role a) "user" && negb (strict_eq (prop data "user_id") (uid_json a))
    then ret (Reply 403 (PMessage "Access denied"))
    else ret (Reply 200 (PRow data))).

(** ** Filters and ordering of the database client *)

Fixpoint digits_val (s : string) (acc : Z) : option Z :=
  match s with
  | EmptyString => Some acc
  | String c s' =>
      let n := Z.of_nat (Ascii.nat_of_ascii c) in
      if (48 <=? n) && (n <=? 57) then digits_val s' (acc * 10 + (n - 48))
      else None
  end.

(** PostgreSQL's input syntax for an integer literal: an optional sign and
    at least one decimal digit. *)
Definition parse_int (s : string) : option Z :=
  match s with
  | EmptyString => None
  | String c d =>
      if Ascii.eqb c "-"%char then
        (if String.eqb d "" then None else option_map Z.opp (digits_val d 0))
      else if Ascii.eqb c "+"%char then
        (if String.eqb d "" then None else digits_val d 0)
      else digits_val s 0
  end.

(** [.eq(col, v)] on one row.  A string value against an integer column is
    cast as an integer literal; a literal that does not parse, like a NULL
    column, matches no row. *)
Definition db_eq (c : option json) (v : json) : bool :=
  match c, v with
  | Some (JNum q), JNum q' => Qeq_bool q q'
  | Some (JStr x), JStr y => String.eqb x y
  | Some (JBool x), JBool y => Bool.eqb x y
  | Some (JNum q), JStr y =>
      match parse_int y with Some z => Qeq_bool q (inject_Z z) | None => false end
  | _, _ => false
  end.

Definition col_str (r : row) (col : string) : string :=
  match r !! col with Some (JStr s) => s | _ => "" end.

(** [.gte(col, v)] and [.lte(col, v)] on ISO-8601 timestamp columns, which
    compare chronologically as strings. *)
Inductive filter :=
| FEq (col : string) (v : json)
| FGte (col : string) (v : string)
| FLte (col : string) (v : string).

Definition filter_ok (r : row) (f : filter) : bool :=
  match f with
  | FEq col v => db_eq (r !! col) v
  | FGte col v => String.leb v (col_str r col)
  | FLte col v => String.leb (col_str r col) v
  end.

(** The rows of a table passing every filter. *)
Definition select_where (rs : gmap Z row) (fs : list filter) : list row :=
  List.filter (fun r => forallb (filter_ok r) fs) (map snd (map_to_list rs)).

(** [.order(col, { ascending: false })]: a stable insertion sort, latest
    first; rows with equal keys keep the order they came in. *)
Fixpoint insert_desc {A} (key : A -> string) (x : A) (l : list A) : list A :=
  match l with
  | [] => [x]
  | y :: l' => if String.leb (key y) (key x) then x :: y :: l'
               else y :: insert_desc key x l'
  end.

Fixpoint sort_desc {A} (key : A -> string) (l : list A) : list A :=
  match l with
  | [] => []
  | x :: l' => insert_desc key x (sort_desc key l')
  end.

Definition order_desc (col : string) (l : list row) : list row :=
  sort_desc (fun r => col_str r col) l.

(** Query-string parameters: [req.query.k] is a string or [undefined]. *)
Abbreviation query := (gmap string string).

Definition qparam (q : query) (k : string) : option string := q !! k.

(** [if (p)] on a query-string parameter *)
Definition qtruthy (p : option string) : bool :=
  match p with Some s => negb (String.eqb s "") | None => false end.

(** ** The alerts router: GET / *)

Definition listAlerts (a : actor) (q : query) : world -> reply * world :=
  catch_500 (fun w =>
    let status := qparam q "status" in
    let alert_type := qparam q "alert_type" in
    let user_id := qparam q "user_id" in
    let f_status := match status with
                    | Some s => if qtruthy status then [FEq "status" (JStr s)] else []
                    | None => [] end in
    let f_type := match alert_type with
                  | Some s => if qtruthy alert_type then [FEq "alert_type" (JStr s)] else []
                  | None => [] end in
    let f_user := if String.eqb (role a) "user"
                  then [FEq "user_id" (JNum (inject_Z (uid a)))]
                  else match user_id with
                       | Some s => if qtruthy user_id then [FEq "user_id" (JStr s)] else []
                       | None => [] end in
    let data := order_desc "reported_at"
                  (select_where (rows (alerts w)) (f_status ++ f_type ++ f_user)) in
    (inr (Reply 200 (PRows data)), w)).

(** ** The combined incidents router: GET / *)

Definition is_space (c : ascii) : bool :=
  existsb (Ascii.eqb c) [" "%char; "009"%char; "010"%char; "011"%char;
                         "012"%char; "013"%char].

Fixpoint digit_prefix (s : string) (acc : option Z) : option Z :=
  match s with
  | String c s' =>
      let n := Z.of_nat (Ascii.nat_of_ascii c) in
      if (48 <=? n) && (n <=? 57)
      then digit_prefix s' (Some (match acc with Some x => x | None => 0 end * 10 + (n - 48)))
      else acc
  | EmptyString => acc
  end.

Fixpoint skip_spaces (s : string) : string :=
  match s with
  | String c s' => if is_space c then skip_spaces s' else s
  | EmptyString => s
  end.

(** [parseInt(s)]: leading white space, a sign, the longest run of decimal
    digits; [None] is NaN. *)
Definition js_parseInt (s : string) : option Z :=
  match skip_spaces s with
  | String c d =>
      if Ascii.eqb c "-"%char then option_map Z.opp (digit_prefix d None)
      else if Ascii.eqb c "+"%char then digit_prefix d None
      else digit_prefix (String c d) None
  | EmptyString => None
  end.

(** [Array.prototype.slice(start, end)]; NaN counts as 0, negative
    positions count from the end. *)
Definition js_slice {A} (l : list A) (st en : option Z) : list A :=
  let n := Z.of_nat (length l) in
  let rel x := match x with
               | None => 0
               | Some x => if x <? 0 then Z.max (n + x) 0 else Z.min x n
               end in
  firstn (Z.to_nat (rel en - rel st)) (skipn (Z.to_nat (rel st)) l).

Definition opt_add (x y : option Z) : option Z :=
  match x, y with Some a, Some b => Some (a + b) | _, _ => None end.

Definition to_item (src ts_field : string) (r : row) : item :=
  mkItem src (prop r "id") (prop r "user_id") (prop r "status")
    (prop r ts_field) (prop r "latitude") (prop r "longitude") r.

Definition item_ts (i : item) : string :=
  match timestamp i with Json (JStr s) => s | _ => "" end.

Definition listIncidents (a : actor) (q : query) : world -> reply * world :=
  catch_500_raw (fun w =>
    let type := match qparam q "type" with Some t => t | None => "all" end in
    let status := qparam q "status" in
    let from := qparam q "from" in
    let to := qparam q "to" in
    let parsedLimit := js_parseInt (match qparam q "limit" with Some l => l | None => "20" end) in
    let parsedOffset := js_parseInt (match qparam q "offset" with Some o => o | None => "0" end) in
    let buildBaseQuery ts :=
      (match status with Some s => if qtruthy status then [FEq "status" (JStr s)] else [] | None => [] end)
      ++ (match from with Some f => if qtruthy from then [FGte ts f] else [] | None => [] end)
      ++ (match to with Some t => if qtruthy to then [FLte ts t] else [] | None => [] end)
      ++ (if String.eqb (role a) "user" then [FEq "user_id" (JNum (inject_Z (uid a)))] else []) in
    let alerts_items :=
      if String.eqb type "alert" || String.eqb type "all"
      then map (to_item "alert" "reported_at")
             (order_desc "reported_at" (select_where (rows (alerts w)) (buildBaseQuery "reported_at")))
      else [] in
    let crash_items :=
      if String.eqb type "crash" || String.eqb type "all"
      then map (to_item "crash" "triggered_at")
             (order_desc "triggered_at"
                (select_where (rows (crash_events w))
                   (buildBaseQuery "triggered_at" ++ [FEq "event_type" (JStr "AUTO_CRASH")])))
      else [] in
    let combined := sort_desc item_ts (alerts_items ++ crash_items) in
    let total := Z.of_nat (length combined) in
    let paginated := js_slice combined parsedOffset (opt_add parsedOffset parsedLimit) in
    (inr (Reply 200 (PPage paginated total parsedLimit parsedOffset (Z.of_nat (length paginated)))), w)).

(** ** String and number conversions used by the create handlers *)

Fixpoint trim_end (s : string) : string :=
  match s with
  | String c s' =>
      let t := trim_end s' in
      if String.eqb t "" && is_space c then "" else String c t
  | EmptyString => EmptyString
  end.

(** [v.trim()]: a string loses its leading and trailing white space; on a
    value that is not a string the call throws a TypeError. *)
Definition trim (what : string) (v : jsval) : M string :=
  match v with
  | Json (JStr s) => ret (trim_end (skip_spaces s))
  | _ => throw (what ++ ".trim is not a function")
  end.

(** [v?.trim() || null] *)
Definition trim_or_null (what : string) (v : jsval) : M jsval :=
  match v with
  | Undef | Json JNull => ret (Json JNull)
  | _ => let* t := trim what v in
         ret (if String.eqb t "" then Json JNull else Json (JStr t))
  end.

Definition is_digit (c : ascii) : option Z :=
  let n := Z.of_nat (Ascii.nat_of_ascii c) in
  if (48 <=? n) && (n <=? 57) then Some (n - 48) else None.

(** The decimal prefix of a string: digits with at most one point. *)
Fixpoint decimal_prefix (s : string) (seen : bool) (frac : bool) (num : Z) (den : positive)
  : option Q :=
  match s with
  | String c s' =>
      match is_digit c with
      | Some d => decimal_prefix s' true frac (num * 10 + d) (if frac then den * 10 else den)
      | None =>
          if Ascii.eqb c "."%char && negb frac then decimal_prefix s' seen true num den
          else if seen then Some (num # den) else None
      end
  | EmptyString => if seen then Some (num # den) else None
  end.

(** [parseFloat(s)] on a string, without the exponent and [Infinity]
    forms; [None] is NaN. *)
Definition js_parseFloat_str (s : string) : option Q :=
  match skip_spaces s with
  | String c d =>
      if Ascii.eqb c "-"%char then option_map Qopp (decimal_prefix d false false 0 1)
      else if Ascii.eqb c "+"%char then decimal_prefix d false false 0 1
      else decimal_prefix (String c d) false false 0 1
  | EmptyString => None
  end.

(** [parseFloat(v)] stored through [JSON.stringify], where NaN becomes
    [null].  A number parses to itself; any other non-string is NaN. *)
Definition parseFloat_json (v : jsval) : json :=
  match v with
  | Json (JNum q) => JNum q
  | Json (JStr s) => match js_parseFloat_str s with Some q => JNum q | None => JNull end
  | _ => JNull
  end.

(** ** The alerts router: POST / *)

Definition validAlertTypes : list string :=
  ["medical"; "fire"; "accident"; "crime"; "natural_disaster"; "other"].

Definition validSeverities : list string := ["low"; "medium"; "high"; "critical"].

(** [list.includes(v)] over a list of strings *)
Definition includes (l : list string) (v : jsval) : bool :=
  match v with Json (JStr s) => existsb (String.eqb s) l | _ => false end.

Definition createAlert (a : actor) (req_body : row) : world -> reply * world :=
  catch_500 (
    let alert_type := prop req_body "alert_type" in
    let severity := prop req_body "severity" in
    let title := prop req_body "title" in
    let description := prop req_body "description" in
    let location := prop req_body "location" in
    let latitude := prop req_body "latitude" in
    let longitude := prop req_body "longitude" in
    let image_url := prop req_body "image_url" in
    if negb (truthy alert_type) || negb (truthy severity) || negb (truthy title)
       || negb (truthy location)
    then ret (Reply 400 (PMessage "Missing required fields")) else
    if negb (includes validAlertTypes alert_type)
    then ret (Reply 400 (PMessage "Invalid alert type")) else
    if negb (includes validSeverities severity)
    then ret (Reply 400 (PMessage "Invalid severity level")) else
    let* title_t := trim "title" title in
    let* description_t := trim_or_null "description" description in
    let* location_t := trim "location" location in
    let alertData :=
      put "user_id" (uid_json a)
      (put "alert_type" alert_type
      (put "severity" severity
      (put "title" (Json (JStr title_t))
      (put "description" description_t
      (put "location" (Json (JStr location_t))
      (put "latitude" (Json (if truthy latitude then parseFloat_json latitude else JNull))
      (put "longitude" (Json (if truthy longitude then parseFloat_json longitude else JNull))
      (put "image_url" (js_or image_url (Json JNull))
      (put "status" (Json (JStr "pending")) ∅))))))))) in
    let* data := insert_single TAlerts alertData in
    let* _ := broadcast "alert:new" data in
    ret (Reply 201 (PRow data))).

(** ** The crash router: POST / *)

Definition createCrash (a : actor) (req_body : row) (now : string)
  : world -> reply * world :=
  catch_500_raw (
    let latitude := prop req_body "latitude" in
    let longitude := prop req_body "longitude" in
    let impact_force := prop req_body "impact_force" in
    let device_battery := prop req_body "device_battery" in
    let network_type := prop req_body "network_type" in
    if negb (truthy latitude) || negb (truthy longitude)
    then ret (Reply 400 (PMessage "Latitude and longitude are required")) else
    let crashEvent :=
      put "user_id" (uid_json a)
      (put "event_type" (Json (JStr "AUTO_CRASH"))
      (put "latitude" latitude
      (put "longitude" longitude
      (put "impact_force" (js_or impact_force (Json JNull))
      (put "device_battery" (js_or device_battery (Json JNull))
      (put "network_type" (js_or network_type (Json JNull))
      (put "status" (Json (JStr "pending"))
      (put "triggered_at" (Json (JStr now)) ∅)))))))) in
    let* data := insert_single TCrash crashEvent in
    ret (Reply 201 (PWrapped "Crash event recorded" "event" data))).

(** ** The SOS router: POST / *)

Definition num_in (v : jsval) (lo hi : Q) : bool :=
  match v with Json (JNum q) => Qle_bool lo q && Qle_bool q hi | _ => false end.

Definition createSos (a : actor) (req_body : row) (now : string)
  : world -> reply * world :=
  catch_500 (
    let type := prop req_body "type" in
    let description := prop req_body "description" in
    let latitude := prop req_body "latitude" in
    let longitude := prop req_body "longitude" in
    if negb (truthy type) || strict_eq latitude Undef || strict_eq longitude Undef
    then ret (Reply 400 (PMessage "Missing required fields (type, latitude, longitude)")) else
    if negb (is_number latitude) || negb (num_in latitude (-90) 90)
       || negb (is_number longitude) || negb (num_in longitude (-180) 180)
    then ret (Reply 400 (PMessage "Invalid latitude or longitude values")) else
    let* description_t := trim_or_null "description" description in
    let sosData :=
      put "user_id" (uid_json a)
      (put "type" type
      (put "description" description_t
      (put "latitude" latitude
      (put "longitude" longitude
      (put "status" (Json (JStr "pending"))
      (put "triggered_at" (Json (JStr now)) ∅)))))) in
    let* data := insert_single TSos sosData in
    ret (Reply 201 (PWrapped "SOS sent successfully" "sos" data))).

(** ** The crash router: PUT /:id *)

Definition updateCrash (a : actor) (id : Z) (req_body : row) : world -> reply * world :=
  catch_500_raw (fun w =>
    match rows (crash_events w) !! id with
    | None => (inr (Reply 404 (PMessage "Crash event not found")), w)
    | Some existing =>
      if String.eqb (role a) "user" && negb (strict_eq (prop existing "user_id") (uid_json a))
      then (inr (Reply 403 (PMessage "You do not have permission to update this event")), w)
      else
      let updates := delete "triggered_at" (delete "updated_at" (delete "created_at"
                       (delete "event_type" (delete "user_id" (delete "id" req_body))))) in
      (let* data := update_single TCrash id updates in
       ret (Reply 200 (PWrapped "Crash event updated" "event" data))) w
    end).

(** ** Deleting rows *)

(** [from(t).delete().eq('id', id)]: the row goes, if there is one; no row
    is no error. *)
Definition delete_rows (t : tbl) (id : Z) : M unit :=
  fun w => let tb := get_table w t in
           (inr tt, set_table w t (mkTable (delete id (rows tb)) (serial tb))).

(** ** Decimal digits *)

Definition digit_char (d : Z) : ascii := ascii_of_nat (Z.to_nat (48 + d)).

Fixpoint dec_digits_go (fuel : nat) (n : Z) (acc : list Z) : list Z :=
  match fuel with
  | O => acc
  | S f => let acc' := (n mod 10) :: acc in
           if n <? 10 then acc' else dec_digits_go f (n / 10) acc'
  end.

(** The decimal digits of [n >= 0], most significant first; [0] is [[0]].
    A number has no more decimal digits than binary ones. *)
Definition dec_digits (n : Z) : list Z := dec_digits_go (Z.to_nat (Z.log2 n + 1)) n [].

Definition string_of_digits (ds : list Z) : string :=
  fold_right (fun d s => String (digit_char d) s) EmptyString ds.

(** [String(z)] for an integer [z]. *)
Definition dec_Z (z : Z) : string :=
  if z <? 0 then ("-" ++ string_of_digits (dec_digits (- z)))%string
  else string_of_digits (dec_digits z).

(** ** The alerts router: DELETE /:id

    The route parameter [req.params.id] is the decimal form of [id]. *)

Definition deleteAlert (a : actor) (id : Z) : world -> reply * world :=
  catch_500 (
    if negb (String.eqb (role a) "admin")
    then ret (Reply 403 (PMessage "Access denied. Admin only.")) else
    let* _ := delete_rows TAlerts id in
    let* _ := broadcast "alert:deleted" {[ "id" := JStr (dec_Z id) ]} in
    ret (Reply 200 (PMessage "Alert deleted successfully"))).

(** ** The crash router: PATCH /:id, the same steps as PUT /:id *)

Definition patchCrash (a : actor) (id : Z) (req_body : row) : world -> reply * world :=
  catch_500_raw (fun w =>
    match rows (crash_events w) !! id with
    | None => (inr (Reply 404 (PMessage "Crash event not found")), w)
    | Some existing =>
      if String.eqb (role a) "user" && negb (strict_eq (prop existing "user_id") (uid_json a))
      then (inr (Reply 403 (PMessage "You do not have permission to update this event")), w)
      else
      let updates := delete "triggered_at" (delete "updated_at" (delete "created_at"
                       (delete "event_type" (delete "user_id" (delete "id" req_body))))) in
      (let* data := update_single TCrash id updates in
       ret (Reply 200 (PWrapped "Crash event updated" "event" data))) w
    end).

(** ** The crash router: DELETE /:id *)

Definition deleteCrash (a : actor) (id : Z) : world -> reply * world :=
  catch_500_raw (fun w =>
    match rows (crash_events w) !! id with
    | None => (inr (Reply 404 (PMessage "Crash event not found")), w)
    | Some existing =>
      if String.eqb (role a) "user" && negb (strict_eq (prop existing "user_id") (uid_json a))
      then (inr (Reply 403 (PMessage "You do not have permission to delete this event")), w)
      else
      (let* _ := delete_rows TCrash id in
       ret (Reply 200 (PMessage "Crash event deleted"))) w
    end).

(** ** The reports router: GET /summary

    The two counting queries ([head: true], so no rows come back) are
    awaited and their errors ignored.  The status breakdown then calls
    [query.group('status')]; the query builder of the database client has
    no [group] method, so the call throws a TypeError. *)

Definition count_where (rs : gmap Z row) (fs : list filter) : Z :=
  Z.of_nat (length (select_where rs fs)).

Definition summary (a : actor) (q : query) : world -> reply * world :=
  catch_500_raw (fun w =>
    let from := qparam q "from" in
    let to := qparam q "to" in
    let filters ts :=
      (match from with Some f => if qtruthy from then [FGte ts f] else [] | None => [] end)
      ++ (match to with Some t => if qtruthy to then [FLte ts t] else [] | None => [] end)
      ++ (if String.eqb (role a) "user" then [FEq "user_id" (JNum (inject_Z (uid a)))] else []) in
    let alertsCount := count_where (rows (alerts w)) (filters "reported_at") in
    let crashesCount := count_where (rows (crash_events w)) (filters "triggered_at") in
    let getStatusBreakdown (t : tbl) (ts : string) : M json :=
      throw "query.group is not a function" in
    (let* alertStatuses := getStatusBreakdown TAlerts "reported_at" in
     let* crashStatuses := getStatusBreakdown TCrash "triggered_at" in
     ret (Reply 200 (PRow
       {[ "total_alerts" := JNum (inject_Z alertsCount); "total_crashes" := JNum (inject_Z crashesCount);
          "alerts_by_status" := alertStatuses; "crashes_by_status" := crashStatuses ]}))) w).

(** ** The geolocation router: POST /reverse

    A JavaScript number read by [parseFloat]: finite, or an infinity; NaN
    is [None]. *)
Inductive jsnum := Finite (q : Q) | PosInf | NegInf.

Definition jsnum_neg (x : jsnum) : jsnum :=
  match x with Finite q => Finite (- q) | PosInf => NegInf | NegInf => PosInf end.

(** The longest run of decimal digits at the head of [s], and the rest. *)
Fixpoint digit_run (s : string) : list Z * string :=
  match s with
  | String c s' =>
      match is_digit c with
      | Some d => let (ds, r) := digit_run s' in (d :: ds, r)
      | None => ([], s)
      end
  | EmptyString => ([], EmptyString)
  end.

Definition digits_value (ds : list Z) : Z := fold_left (fun acc d => acc * 10 + d) ds 0.

(** An exponent part [e]/[E], an optional sign and at least one digit;
    anything else after the mantissa is not read. *)
Definition exponent (s : string) : Z :=
  match s with
  | String c r =>
      if Ascii.eqb c "e"%char || Ascii.eqb c "E"%char then
        let '(sg, r') := match r with
                         | String c' r'' =>
                             if Ascii.eqb c' "-"%char then (-1, r'')
                             else if Ascii.eqb c' "+"%char then (1, r'') else (1, r)
                         | EmptyString => (1, r)
                         end in
        let (ed, _) := digit_run r' in
        match ed with [] => 0 | _ => sg * digits_value ed end
      else 0
  | EmptyString => 0
  end.

(** The longest prefix of [s] that is an unsigned decimal literal:
    [Infinity], or digits with an optional fraction and exponent. *)
Definition parse_unsigned (s : string) : option jsnum :=
  if String.prefix "Infinity" s then Some PosInf else
  let (ip, r1) := digit_run s in
  let (fp, r3) := match r1 with
                  | String c r2 => if Ascii.eqb c "."%char then digit_run r2 else ([], r1)
                  | EmptyString => ([], r1)
                  end in
  match ip ++ fp with
  | [] => None
  | ds => Some (Finite ((digits_value ds # Z.to_pos (10 ^ Z.of_nat (length fp)))
                        * Qpower (inject_Z 10) (exponent r3)))
  end.

(** [parseFloat(s)] on a string: leading white space, a sign, then the
    longest decimal literal. *)
Definition js_parseFloat (s : string) : option jsnum :=
  match skip_spaces s with
  | String c d =>
      if Ascii.eqb c "-"%char then option_map jsnum_neg (parse_unsigned d)
      else if Ascii.eqb c "+"%char then parse_unsigned d
      else parse_unsigned (String c d)
  | EmptyString => None
  end.

(** [parseFloat(v)] on a parsed JSON value, which reads [String(v)]: a
    number reads back as itself; [null], booleans and objects print as
    words that are not numbers; an array prints as its elements joined by
    commas, where a comma ends the literal, so only its first element
    counts ([null] in an array prints as nothing). *)
Fixpoint parseFloat_val (v : json) : option jsnum :=
  match v with
  | JNum q => Some (Finite q)
  | JStr s => js_parseFloat s
  | JArr (x :: _) => parseFloat_val x
  | JArr [] | JNull | JBool _ | JObj _ => None
  end.

(** [isNaN(x) || x < lo || x > hi] *)
Definition out_of_range (x : option jsnum) (lo hi : Q) : bool :=
  match x with
  | Some (Finite q) => negb (Qle_bool lo q && Qle_bool q hi)
  | _ => true
  end.

Definition fin_val (x : option jsnum) : Q :=
  match x with Some (Finite q) => q | _ => 0 end.

Definition pad_digits (k : nat) (ds : list Z) : list Z := repeat 0 (k - length ds) ++ ds.

(** [x.toFixed(6)] for [|x| < 10^21]: the integer [n] nearest to
    [|x| * 10^6] (the larger on a tie), its digits padded to seven, a point
    before the last six, and a minus sign when [x < 0]. *)
Definition toFixed6 (x : Q) : string :=
  let n := Qfloor (Qabs x * inject_Z 1000000 + (1 # 2)) in
  let ds := pad_digits 7 (dec_digits n) in
  let k := (length ds - 6)%nat in
  ((if Qle_bool 0 x then "" else "-")
   ++ string_of_digits (firstn k ds) ++ "." ++ string_of_digits (skipn k ds))%string.

(** A property read on a JSON value ([undefined] unless it is an object;
    the last of duplicate keys wins, as in [JSON.parse]). *)
Definition vprop (v : jsval) (k : string) : jsval :=
  match v with
  | Json (JObj l) =>
      match List.find (fun kv => String.eqb (fst kv) k) (rev l) with
      | Some (_, j) => Json j
      | None => Undef
      end
  | _ => Undef
  end.

(** A reply body under construction: [JSON.stringify] drops a key whose
    value is [undefined]. *)
Definition jset (k : string) (v : jsval) (o : list (string * json)) : list (string * json) :=
  match v with Json j => o ++ [(k, j)] | _ => o end.

Record geo_reply := GeoReply { geo_code : Z; geo_body : list (string * json) }.

Section Geocode.

(** [Number.prototype.toString], used where [parts.join] prints a number
    the geocoder sent in an address field. *)
Variable num_str : Q -> string.

(** [String(v)] of a JSON value, as [Array.prototype.join] prints it. *)
Fixpoint json_str (j : json) : string :=
  match j with
  | JNull => "null"
  | JBool b => if b then "true" else "false"
  | JNum q => num_str q
  | JStr s => s
  | JArr l =>
      (fix go (l : list json) : string :=
         match l with
         | [] => ""
         | [x] => match x with JNull => "" | _ => json_str x end
         | x :: r => String.append (match x with JNull => "" | _ => json_str x end)
                       (String.append "," (go r))
         end) l
  | JObj _ => "[object Object]"
  end.

Definition val_str (v : jsval) : string :=
  match v with Json j => json_str j | Undef => "" | Obj _ => "[object Object]" end.

Fixpoint join (sep : string) (l : list string) : string :=
  match l with
  | [] => ""
  | [x] => x
  | x :: r => (x ++ sep ++ join sep r)%string
  end.

(** The answer of the geocoding service: [response.data], or the message
    of the error [axios.get] threw. *)
Definition reverseGeocode (req_body : row) (resp : string + jsval) : geo_reply :=
  let latitude := prop req_body "latitude" in
  let longitude := prop req_body "longitude" in
  if strict_eq latitude Undef || strict_eq longitude Undef
  then GeoReply 400 (jset "message" (Json (JStr "Latitude and longitude are required"))
                       [("success", JBool false)]) else
  let plat := match latitude with Json j => parseFloat_val j | _ => None end in
  let plng := match longitude with Json j => parseFloat_val j | _ => None end in
  if out_of_range plat (-90) 90 || out_of_range plng (-180) 180
  then GeoReply 400 (jset "message" (Json (JStr "Invalid coordinates. Latitude must be between -90 and 90, longitude between -180 and 180."))
                       [("success", JBool false)]) else
  let lat := fin_val plat in
  let lng := fin_val plng in
  let coords := (toFixed6 lat ++ ", " ++ toFixed6 lng)%string in
  match resp with
  | inl msg =>
      GeoReply 200 (jset "error" (Json (JStr msg))
                   (jset "fallback" (Json (JBool true))
                   (jset "address" (Json (JStr coords)) [("success", JBool true)])))
  | inr d =>
      let addr := vprop d "address" in
      if truthy d && truthy addr then
        let parts :=
          (if truthy (vprop addr "road") then [vprop addr "road"] else [])
          ++ (if truthy (vprop addr "suburb") then [vprop addr "suburb"]
              else if truthy (vprop addr "neighbourhood") then [vprop addr "neighbourhood"]
              else [])
          ++ (if truthy (vprop addr "city") then [vprop addr "city"]
              else if truthy (vprop addr "town") then [vprop addr "town"]
              else if truthy (vprop addr "municipality") then [vprop addr "municipality"]
              else [])
          ++ (if truthy (vprop addr "state") then [vprop addr "state"] else []) in
        let address := join ", " (map val_str parts) in
        let details : list (string * json) :=
          jset "postcode" (js_or (vprop addr "postcode") (Json JNull))
          (jset "country" (js_or (vprop addr "country") (Json JNull))
          (jset "state" (js_or (vprop addr "state") (Json JNull))
          (jset "city" (js_or (vprop addr "city") (js_or (vprop addr "town")
                          (js_or (vprop addr "municipality") (Json JNull))))
          (jset "suburb" (js_or (vprop addr "suburb") (js_or (vprop addr "neighbourhood") (Json JNull)))
          (jset "road" (js_or (vprop addr "road") (Json JNull)) []))))) in
        GeoReply 200 (jset "display_name" (vprop d "display_name")
                     (jset "details" (Json (JObj details))
                     (jset "address" (js_or (Json (JStr address)) (vprop d "display_name"))
                       [("success", JBool true)])))
      else if truthy d && truthy (vprop d "display_name") then
        GeoReply 200 (jset "display_name" (vprop d "display_name")
                     (jset "address" (vprop d "display_name") [("success", JBool true)]))
      else
        GeoReply 200 (jset "fallback" (Json (JBool true))
                     (jset "address" (Json (JStr coords)) [("success", JBool true)]))
  end.

End Geocode.

(** The columns the crash update handlers delete from the body. *)
Definition crash_protected : list string :=
  ["id"; "user_id"; "event_type"; "created_at"; "updated_at"; "triggered_at"].


(** ** A concrete store *)

Definition num (z : Z) : json := JNum (inject_Z z).

Definition alert1 : row :=
  {[ "id" := num 1; "user_id" := num 10; "status" := JStr "pending";
     "reported_at" := JStr "2025-01-01T00:00:00.000Z";
     "assigned_vehicle_id" := JNull; "assigned_responder_id" := JNull ]}.

Definition empty_table : table := mkTable ∅ 1.

Definition w0 : world :=
  mkWorld (mkTable {[1 := alert1]} 2) empty_table empty_table
    {[7 := "available"; 8 := "available"]} (Obj 1) [].

Definition dispatcher : actor := mkActor 2 "dispatcher".
Definition rescuer : actor := mkActor 3 "rescuer".
Definition userA : actor := mkActor 10 "user".
Definition userB : actor := mkActor 11 "user".

Definition vehicle_status (w : world) (v : Z) : option string := vehicles w !! v.
Definition alert_col (w : world) (id : Z) (c : string) : option json :=
  rows (alerts w) !! id ≫= (fun r => r !! c).

Definition t1 := "2025-01-01T00:01:00.000Z".
Definition t2 := "2025-01-01T00:02:00.000Z".
Definition t3 := "2025-01-01T00:03:00.000Z".

Definition scenario :=
  let w1 := snd (assign dispatcher 1 {[ "vehicle_id" := num 7 ]} t1 w0) in
  let w2 := snd (updateStatus rescuer 1 {[ "status" := JStr "responding" ]} t2 w1) in
  let w3 := snd (updateStatus dispatcher 1 {[ "status" := JStr "resolved" ]} t3 w2) in
  (vehicle_status w1 7, vehicle_status w2 7, vehicle_status w3 7, alert_col w3 1 "status").


(** The serial keys of the vehicles table start at 1. *)
Definition wf_vehicle_keys (w : world) : Prop :=
  forall k st, vehicles w !! k = Some st -> 0 < k.

Definition is_vehicle_write (e : effect) : bool :=
  match e with VehicleWrite _ _ => true | _ => false end.


Definition with_alert (r : row) : world :=
  mkWorld (mkTable {[1 := r]} 2) empty_table empty_table
    {[7 := "available"; 8 := "available"]} (Obj 1) [].

Definition alert_resolved : row := <["status" := JStr "resolved"]> alert1.


(** The row a create handler persists: [pending], and no vehicle or
    responder assigned (a column absent from the insert is NULL). *)
Definition pending_unassigned (r : row) : Prop :=
  r !! "status" = Some (JStr "pending") /\
  (r !! "assigned_vehicle_id" = None \/ r !! "assigned_vehicle_id" = Some JNull) /\
  (r !! "assigned_responder_id" = None \/ r !! "assigned_responder_id" = Some JNull).

(** Table [t] of [w'] is that of [w], or has one new row, under the next
    serial key, that is [pending_unassigned]. *)
Definition persists_only_pending (t : tbl) (w w' : world) : Prop :=
  rows (get_table w' t) = rows (get_table w t) \/
  exists r, rows (get_table w' t) = <[serial (get_table w t) := r]> (rows (get_table w t))
            /\ pending_unassigned r.


(** The vehicles table after [update_vehicle v st]. *)
Definition vehicle_set (v : jsval) (st : string) (vs : gmap Z string) : gmap Z string :=
  match as_key v with
  | Some k => match vs !! k with Some _ => <[k := st]> vs | None => vs end
  | None => vs
  end.

(** The row belongs to the actor: [row.user_id === req.user.id]. *)
Definition owned (a : actor) (r : row) : bool := strict_eq (prop r "user_id") (uid_json a).


Definition admin : actor := mkActor 1 "admin".

(** What a broadcast appends to the effect log: nothing unless [io] holds
    the server object. *)
Definition emitted (i : jsval) (ev : string) (p : row) : list effect :=
  match i with Obj _ => [Emit ev p] | _ => [] end.

Definition status_patch (s now : string) : row :=
  <["status" := JStr s]> {[ "updated_at" := JStr now ]}.

(** The vehicles table and the effects after one PATCH /:id/status on a
    row whose assigned vehicle is [v], as the handler's two guarded
    updates compute them. *)
Definition status_vehicles (s : string) (v : jsval) (vs : gmap Z string) : gmap Z string :=
  let vs1 := if String.eqb s "responding" && truthy v then vehicle_set v "responding" vs else vs in
  if String.eqb s "resolved" && truthy v then vehicle_set v "available" vs1 else vs1.

Definition status_effects (id : Z) (s : string) (v : jsval) (i : jsval) (p : row) : list effect :=
  [RowWrite TAlerts id]
  ++ (if String.eqb s "responding" && truthy v then [VehicleWrite v "responding"] else [])
  ++ (if String.eqb s "resolved" && truthy v then [VehicleWrite v "available"] else [])
  ++ emitted i "alert:status_updated" p.

(** An alert already [responding] with vehicle 7 on its way. *)
Definition alert_responding : row :=
  <["assigned_vehicle_id" := num 7]> (<["status" := JStr "responding"]> alert1).

Definition responding_body : gmap string json := {[ "status" := JStr "responding" ]}.

(** The effects a call appended to the log, after those of [w]. *)
Definition new_effects (w w' : world) : list effect := drop (length (log w)) (log w').

(** The sample store while the notifier is not initialized. *)
Definition with_alert_down (r : row) : world :=
  mkWorld (mkTable {[1 := r]} 2) empty_table empty_table
    {[7 := "available"; 8 := "available"]} Undef [].

(** A crash event of [userA]. *)
Definition crash1 : row :=
  {[ "id" := num 5; "user_id" := num 10; "event_type" := JStr "crash";
     "latitude" := num 14; "longitude" := num 121 ]}.

Definition w_crash : world :=
  mkWorld empty_table (mkTable {[5 := crash1]} 6) empty_table
    {[7 := "available"]} (Obj 1) [].

Definition crash_body : row := {[ "notes" := JStr "towed"; "user_id" := num 11 ]}.

Definition coords_body : row := {[ "latitude" := num 14; "longitude" := num 121 ]}.

(** * Properties *)

(** The scenario of the specification, run end to end. *)
Example scenario_run :
  scenario = (Some "assigned", Some "responding", Some "available", Some (JStr "resolved")).
Proof. vm_compute. reflexivity. Qed.

(** ** Step lemmas of the database client and the notifier *)

Lemma update_vehicle_eq v st w :
  update_vehicle v st w
  = (inr tt, set_vehicles (push_log w (VehicleWrite v st)) (vehicle_set v st (vehicles w))).
Proof.
  unfold update_vehicle, vehicle_set; simpl.
  destruct (as_key v) as [k|]; [destruct (vehicles w !! k)|]; reflexivity.
Qed.

Lemma when_update_vehicle b v st w :
  when b (update_vehicle v st) w
  = (inr tt, if b then set_vehicles (push_log w (VehicleWrite v st)) (vehicle_set v st (vehicles w))
             else w).
Proof. destruct b; [apply update_vehicle_eq | reflexivity]. Qed.

Lemma as_key_num z : as_key (Json (num z)) = Some z.
Proof.
  unfold as_key, num; simpl. rewrite Z.mod_1_r, Z.div_1_r. reflexivity.
Qed.

Lemma truthy_num z : truthy (Json (num z)) = negb (z =? 0).
Proof.
  unfold truthy, json_truthy, num. f_equal.
  unfold Qeq_bool; simpl. rewrite !Z.mul_1_r.
  destruct z; reflexivity.
Qed.

Lemma vehicle_set_num z st vs st0 :
  vs !! z = Some st0 -> vehicle_set (Json (num z)) st vs = <[z := st]> vs.
Proof. intros H. unfold vehicle_set. rewrite as_key_num, H. reflexivity. Qed.

Lemma broadcast_cases ev p w :
  broadcast ev p w = (inr tt, push_log w (Emit ev p))
  \/ exists e, broadcast ev p w = (inl e, w).
Proof.
  unfold broadcast. destruct (Socket.getIO (io w)) as [e|[| |r]]; eauto.
Qed.

Lemma broadcast_obj ev p w r :
  io w = Obj r -> broadcast ev p w = (inr tt, push_log w (Emit ev p)).
Proof. intros H. unfold broadcast, Socket.getIO. rewrite H. reflexivity. Qed.

(** ** PATCH /:id/status, step by step *)

Section UpdateStatusRun.

Variables (a : actor) (id : Z) (req_body : row) (s now : string) (w : world) (r : row).
Hypothesis H_status : req_body !! "status" = Some (JStr s).
Hypothesis H_valid : existsb (String.eqb s) validStatuses = true.
Hypothesis H_role : role_in a ["admin"; "dispatcher"; "rescuer"] = true.
Hypothesis H_row : rows (alerts w) !! id = Some r.

Let r' : row := (<["status" := JStr s]> {[ "updated_at" := JStr now ]}) ∪ r.
Let v : jsval := prop r' "assigned_vehicle_id".
Let w1 : world :=
  push_log (set_table w TAlerts (mkTable (<[id := r']> (rows (alerts w))) (serial (alerts w))))
    (RowWrite TAlerts id).
Let b1 : bool := String.eqb s "responding" && truthy v.
Let w2 : world :=
  if b1 then set_vehicles (push_log w1 (VehicleWrite v "responding"))
               (vehicle_set v "responding" (vehicles w1)) else w1.
Let b2 : bool := String.eqb s "resolved" && truthy v.
Let w3 : world :=
  if b2 then set_vehicles (push_log w2 (VehicleWrite v "available"))
               (vehicle_set v "available" (vehicles w2)) else w2.

Lemma updateStatus_run :
  updateStatus a id req_body now w
  = catch_500 (let* _ := broadcast "alert:status_updated" r' in ret (Reply 200 (PRow r'))) w3.
Proof.
  unfold updateStatus, catch_500. unfold prop at 1. rewrite H_status.
  rewrite H_valid, H_role. cbv [negb]. cbv iota.
  unfold bind at 1, update_single. cbv beta. cbn [get_table]. rewrite H_row.
  unfold bind at 1. rewrite when_update_vehicle.
  unfold bind at 1. rewrite when_update_vehicle.
  reflexivity.
Qed.

End UpdateStatusRun.

Lemma catch_broadcast_snd ev p x w :
  snd (catch_500 (let* _ := broadcast ev p in ret x) w) = push_log w (Emit ev p)
  \/ snd (catch_500 (let* _ := broadcast ev p in ret x) w) = w.
Proof.
  unfold catch_500, bind.
  destruct (broadcast_cases ev p w) as [H | [e H]]; rewrite H; auto.
Qed.

Lemma catch_broadcast_vehicles ev p x w :
  vehicles (snd (catch_500 (let* _ := broadcast ev p in ret x) w)) = vehicles w.
Proof. destruct (catch_broadcast_snd ev p x w) as [-> | ->]; reflexivity. Qed.

Lemma catch_broadcast_log ev p x w :
  exists fresh, log (snd (catch_500 (let* _ := broadcast ev p in ret x) w)) = log w ++ fresh
    /\ forallb (fun e => negb (is_vehicle_write e)) fresh = true.
Proof.
  destruct (catch_broadcast_snd ev p x w) as [-> | ->].
  - exists [Emit ev p]. split; reflexivity.
  - exists []. rewrite app_nil_r. split; reflexivity.
Qed.

Lemma prop_patch_union (patch r : row) k :
  patch !! k = None -> prop (patch ∪ r) k = prop r k.
Proof. intros H. unfold prop. rewrite lookup_union_r by exact H. reflexivity. Qed.

Lemma status_patch_assigned s now :
  (<["status" := JStr s]> {[ "updated_at" := JStr now ]} : row) !! "assigned_vehicle_id" = None.
Proof. reflexivity. Qed.

(** ** C2 *)

(** C2: for an incident holding vehicle [v], PATCH /:id/status to
    [responding] leaves [v] with status [responding] and to [resolved]
    leaves it [available]; when the incident holds no vehicle the vehicles
    table is untouched and no vehicle update is issued.  The writes happen
    before the broadcast, so they stand whether or not it succeeds. *)
Theorem updateStatus_vehicle_sync a id req_body s now w r :
  req_body !! "status" = Some (JStr s) ->
  existsb (String.eqb s) validStatuses = true ->
  role_in a ["admin"; "dispatcher"; "rescuer"] = true ->
  rows (alerts w) !! id = Some r ->
  let w' := snd (updateStatus a id req_body now w) in
  (forall v st0, r !! "assigned_vehicle_id" = Some (num v) ->
     vehicles w !! v = Some st0 -> wf_vehicle_keys w ->
     (s = "responding" -> vehicles w' !! v = Some "responding") /\
     (s = "resolved" -> vehicles w' !! v = Some "available")) /\
  (r !! "assigned_vehicle_id" = None \/ r !! "assigned_vehicle_id" = Some JNull ->
     vehicles w' = vehicles w /\
     exists fresh, log w' = log w ++ fresh /\ forallb (fun e => negb (is_vehicle_write e)) fresh = true).
Proof.
  intros Hs Hv Hr Hrow w'. subst w'.
  rewrite (updateStatus_run a id req_body s now w r Hs Hv Hr Hrow).
  rewrite prop_patch_union by apply status_patch_assigned.
  rewrite catch_broadcast_vehicles.
  split.
  - intros v st0 Hav Hveh Hwf.
    assert (Hpos : 0 < v) by exact (Hwf v st0 Hveh).
    unfold prop. rewrite Hav, truthy_num.
    replace (v =? 0) with false by (symmetry; apply Z.eqb_neq; lia).
    split; intros ->; cbn.
    + rewrite (vehicle_set_num v "responding" (vehicles w) st0 Hveh). apply lookup_insert_eq.
    + rewrite (vehicle_set_num v "available" (vehicles w) st0 Hveh). apply lookup_insert_eq.
  - intros Hnone. split.
    + unfold prop. destruct Hnone as [-> | ->]; cbn;
        destruct (String.eqb s "responding"), (String.eqb s "resolved"); reflexivity.
    + unfold prop. destruct Hnone as [-> | ->]; cbn [truthy json_truthy]; rewrite !andb_false_r;
      match goal with
      | |- context [catch_500 (bind (broadcast ?ev ?p) (fun _ => ret ?x)) ?w0] =>
          destruct (catch_broadcast_log ev p x w0) as [f [Hl Hf]]
      end;
      rewrite Hl; exists (RowWrite TAlerts id :: f); cbn;
      (split; [rewrite <- app_assoc; reflexivity | exact Hf]).
Qed.

(** ** PATCH /:id/assign, step by step *)

Section AssignRun.

Variables (a : actor) (id : Z) (req_body : row) (now : string) (w : world) (r : row).
Hypothesis H_role : role_in a ["admin"; "dispatcher"] = true.
Hypothesis H_row : rows (alerts w) !! id = Some r.

Let cur : jsval := prop r "assigned_vehicle_id".
Let vid : jsval := prop req_body "vehicle_id".
Let r' : row :=
  put "assigned_vehicle_id" (js_or vid (Json JNull))
    (put "assigned_responder_id" (js_or (prop req_body "responder_id") (Json JNull))
       {[ "updated_at" := JStr now ]}) ∪ r.
Let w1 : world :=
  push_log (set_table w TAlerts (mkTable (<[id := r']> (rows (alerts w))) (serial (alerts w))))
    (RowWrite TAlerts id).
Let b1 : bool := truthy cur && negb (strict_eq cur vid).
Let w2 : world :=
  if b1 then set_vehicles (push_log w1 (VehicleWrite cur "available"))
               (vehicle_set cur "available" (vehicles w1)) else w1.
Let b2 : bool := truthy vid.
Let w3 : world :=
  if b2 then set_vehicles (push_log w2 (VehicleWrite vid "assigned"))
               (vehicle_set vid "assigned" (vehicles w2)) else w2.

Lemma assign_run :
  assign a id req_body now w
  = catch_500 (let* _ := broadcast "alert:assigned" r' in ret (Reply 200 (PRow r'))) w3.
Proof.
  unfold assign, catch_500. rewrite H_role. cbv [negb]. cbv iota.
  unfold bind at 1, select_single. cbv beta. cbn [get_table]. rewrite H_row.
  unfold bind at 1, update_single. cbn [get_table]. rewrite H_row.
  unfold bind at 1. rewrite when_update_vehicle.
  unfold bind at 1. rewrite when_update_vehicle.
  reflexivity.
Qed.

End AssignRun.

Lemma strict_eq_num x y : strict_eq (Json (num x)) (Json (num y)) = (x =? y).
Proof.
  unfold strict_eq, json_strict_eq, num, Qeq_bool; simpl. rewrite !Z.mul_1_r. reflexivity.
Qed.

Lemma catch_broadcast_vehicle_writes ev p x w :
  List.filter is_vehicle_write (log (snd (catch_500 (let* _ := broadcast ev p in ret x) w)))
  = List.filter is_vehicle_write (log w).
Proof.
  destruct (catch_broadcast_snd ev p x w) as [-> | ->]; [|reflexivity].
  cbn. rewrite List.filter_app. cbn. apply app_nil_r.
Qed.

(** ** C3 *)

(** C3: PATCH /:id/assign on an incident holding vehicle [v1] with body
    [vehicle_id = v2], [v1 <> v2], leaves [v1] available and [v2] assigned,
    and the update of [v1] is issued before the one of [v2]; when the body
    names the vehicle the incident already holds, that vehicle is only set
    to assigned, never to available. *)
Theorem assign_vehicle_handover a id req_body now w r :
  role_in a ["admin"; "dispatcher"] = true ->
  rows (alerts w) !! id = Some r ->
  wf_vehicle_keys w ->
  let w' := snd (assign a id req_body now w) in
  (forall v1 v2 s1 s2,
     r !! "assigned_vehicle_id" = Some (num v1) ->
     req_body !! "vehicle_id" = Some (num v2) ->
     v1 <> v2 -> vehicles w !! v1 = Some s1 -> vehicles w !! v2 = Some s2 ->
     vehicles w' !! v1 = Some "available" /\ vehicles w' !! v2 = Some "assigned" /\
     List.filter is_vehicle_write (log w')
     = List.filter is_vehicle_write (log w)
       ++ [VehicleWrite (Json (num v1)) "available"; VehicleWrite (Json (num v2)) "assigned"]) /\
  (forall v s0,
     r !! "assigned_vehicle_id" = Some (num v) ->
     req_body !! "vehicle_id" = Some (num v) ->
     vehicles w !! v = Some s0 ->
     vehicles w' !! v = Some "assigned" /\
     List.filter is_vehicle_write (log w')
     = List.filter is_vehicle_write (log w) ++ [VehicleWrite (Json (num v)) "assigned"]).
Proof.
  intros Hrole Hrow Hwf w'. subst w'.
  rewrite (assign_run a id req_body now w r Hrole Hrow).
  rewrite catch_broadcast_vehicles, catch_broadcast_vehicle_writes.
  split.
  - intros v1 v2 s1 s2 Hcur Hvid Hne Hv1 Hv2.
    assert (P1 : 0 < v1) by exact (Hwf v1 s1 Hv1).
    assert (P2 : 0 < v2) by exact (Hwf v2 s2 Hv2).
    unfold prop. rewrite Hcur, Hvid, !truthy_num, strict_eq_num.
    replace (v1 =? 0) with false by (symmetry; apply Z.eqb_neq; lia).
    replace (v2 =? 0) with false by (symmetry; apply Z.eqb_neq; lia).
    replace (v1 =? v2) with false by (symmetry; apply Z.eqb_neq; exact Hne).
    cbn [negb andb vehicles set_vehicles push_log set_table log].
    rewrite (vehicle_set_num v1 "available" (vehicles w) s1 Hv1).
    rewrite (vehicle_set_num v2 "assigned" (<[v1 := "available"]> (vehicles w)) s2)
      by (rewrite lookup_insert_ne by congruence; exact Hv2).
    split; [|split].
    + rewrite lookup_insert_ne by congruence. apply lookup_insert_eq.
    + apply lookup_insert_eq.
    + rewrite !List.filter_app. cbn. rewrite app_nil_r, <- app_assoc. reflexivity.
  - intros v s0 Hcur Hvid Hv.
    assert (P : 0 < v) by exact (Hwf v s0 Hv).
    unfold prop. rewrite Hcur, Hvid, !truthy_num, strict_eq_num, Z.eqb_refl.
    replace (v =? 0) with false by (symmetry; apply Z.eqb_neq; lia).
    cbn [negb andb vehicles set_vehicles push_log set_table log].
    rewrite (vehicle_set_num v "assigned" (vehicles w) s0 Hv).
    split.
    + apply lookup_insert_eq.
    + rewrite !List.filter_app. cbn. rewrite app_nil_r. reflexivity.
Qed.

Lemma catch_broadcast_alerts ev p x w :
  alerts (snd (catch_500 (let* _ := broadcast ev p in ret x) w)) = alerts w.
Proof. destruct (catch_broadcast_snd ev p x w) as [-> | ->]; reflexivity. Qed.

Lemma catch_broadcast_ok ev p x w ref :
  io w = Obj ref -> fst (catch_500 (let* _ := broadcast ev p in ret x) w) = x.
Proof. intros H. unfold catch_500, bind. rewrite (broadcast_obj ev p w ref H). reflexivity. Qed.

(** ** C1 *)

(** C1, as stated, fails: an incident whose status is [resolved] moves
    back to [pending] through PATCH /:id/status, which answers 200. *)
Lemma updateStatus_terminal_cex :
  ~ (forall a id req_body s now w r,
       role_in a ["admin"; "dispatcher"; "rescuer"] = true ->
       rows (alerts w) !! id = Some r ->
       (r !! "status" = Some (JStr "resolved") \/ r !! "status" = Some (JStr "cancelled")) ->
       req_body !! "status" = Some (JStr s) ->
       existsb (String.eqb s) validStatuses = true ->
       code (fst (updateStatus a id req_body now w)) <> 200 /\
       alert_col (snd (updateStatus a id req_body now w)) id "status" = r !! "status").
Proof.
  intros H.
  destruct (H dispatcher 1 {[ "status" := JStr "pending" ]} "pending" t1
              (with_alert alert_resolved) alert_resolved)
    as [Hcode _]; try reflexivity.
  - left. reflexivity.
  - apply Hcode. vm_compute. reflexivity.
Qed.

(** C1 (amended): PATCH /:id/status does not look at the current status:
    for an existing incident, a permitted role and any valid status [s],
    the incident's status becomes [s], also out of [resolved] or
    [cancelled], and the call answers 200 once the notifier holds the
    server object. *)
Theorem updateStatus_no_transition_guard a id req_body s now w r :
  req_body !! "status" = Some (JStr s) ->
  existsb (String.eqb s) validStatuses = true ->
  role_in a ["admin"; "dispatcher"; "rescuer"] = true ->
  rows (alerts w) !! id = Some r ->
  alert_col (snd (updateStatus a id req_body now w)) id "status" = Some (JStr s) /\
  (forall ref, io w = Obj ref -> code (fst (updateStatus a id req_body now w)) = 200).
Proof.
  intros Hs Hv Hr Hrow.
  rewrite (updateStatus_run a id req_body s now w r Hs Hv Hr Hrow).
  split.
  - unfold alert_col. rewrite catch_broadcast_alerts.
    destruct (String.eqb s "responding" && _), (String.eqb s "resolved" && _);
      cbn [alerts set_vehicles push_log set_table rows];
      rewrite lookup_insert_eq; cbn [mbind option_bind];
      apply lookup_union_Some_l; reflexivity.
  - intros ref Hio. rewrite (catch_broadcast_ok _ _ _ _ ref); [reflexivity|].
    destruct (String.eqb s "responding" && _), (String.eqb s "resolved" && _); exact Hio.
Qed.

(** ** C4 *)

Lemma trim_pure what v w : exists res, trim what v w = (res, w).
Proof. unfold trim. destruct v as [|[]|]; eexists; reflexivity. Qed.

Lemma trim_or_null_pure what v w : exists res, trim_or_null what v w = (res, w).
Proof.
  unfold trim_or_null, bind. destruct v as [|[]|]; try (eexists; reflexivity).
  all: unfold trim; eexists; reflexivity.
Qed.

Lemma put_lookup_ne k k' v (r : row) : k <> k' -> put k v r !! k' = r !! k'.
Proof. intros H. unfold put. destruct v; try reflexivity. apply lookup_insert_ne. exact H. Qed.

Lemma put_lookup_eq k j (r : row) : put k (Json j) r !! k = Some j.
Proof. apply lookup_insert_eq. Qed.

Ltac put_lookups :=
  repeat first [ rewrite put_lookup_eq
               | rewrite lookup_insert_ne by discriminate
               | rewrite put_lookup_ne by discriminate ].

Lemma catch_insert_rows t p k w :
  (forall x w0, rows (get_table (snd (k x w0)) t) = rows (get_table w0 t)) ->
  rows (get_table (snd (catch_500 (bind (insert_single t p) k) w)) t)
  = <[serial (get_table w t) := <["id" := JNum (inject_Z (serial (get_table w t)))]> p]>
      (rows (get_table w t)).
Proof.
  intros Hk. unfold catch_500, bind, insert_single. cbv beta.
  match goal with |- context [k ?x ?w0] => specialize (Hk x w0); destruct (k x w0) as [[e|y] w''] end;
  cbn [snd] in *; rewrite Hk; destruct t; reflexivity.
Qed.

Lemma catch_raw_insert_rows t p k w :
  (forall x w0, rows (get_table (snd (k x w0)) t) = rows (get_table w0 t)) ->
  rows (get_table (snd (catch_500_raw (bind (insert_single t p) k) w)) t)
  = <[serial (get_table w t) := <["id" := JNum (inject_Z (serial (get_table w t)))]> p]>
      (rows (get_table w t)).
Proof.
  intros Hk. unfold catch_500_raw, bind, insert_single. cbv beta.
  match goal with |- context [k ?x ?w0] => specialize (Hk x w0); destruct (k x w0) as [[e|y] w''] end;
  cbn [snd] in *; rewrite Hk; destruct t; reflexivity.
Qed.

Lemma broadcast_ret_rows t ev (x : reply) p w0 :
  rows (get_table (snd ((let* _ := broadcast ev p in ret x) w0)) t) = rows (get_table w0 t).
Proof.
  unfold bind. destruct (broadcast_cases ev p w0) as [H | [e H]]; rewrite H; destruct t; reflexivity.
Qed.

Lemma catch_bind_pure {A} (m : M A) k w res :
  m w = (res, w) ->
  catch_500 (bind m k) w
  = match res with
    | inl e => (Reply 500 (PMessage (if String.eqb e "" then "Server error" else e)), w)
    | inr x => catch_500 (k x) w
    end.
Proof. intros H. unfold catch_500 at 1, bind. rewrite H. destruct res; reflexivity. Qed.

Ltac early_exit := left; reflexivity.

Ltac validation_branches :=
  repeat match goal with
         | |- context [catch_500 (if ?c then _ else _) _] => destruct c; [early_exit|]
         | |- context [catch_500_raw (if ?c then _ else _) _] => destruct c; [early_exit|]
         end.

Lemma createAlert_pending a req_body w :
  persists_only_pending TAlerts w (snd (createAlert a req_body w)).
Proof.
  unfold createAlert. validation_branches.
  destruct (trim_pure "title" (prop req_body "title") w) as [[e|tt1] H1];
    rewrite (catch_bind_pure _ _ _ _ H1); [early_exit|].
  destruct (trim_or_null_pure "description" (prop req_body "description") w) as [[e|tt2] H2];
    rewrite (catch_bind_pure _ _ _ _ H2); [early_exit|].
  destruct (trim_pure "location" (prop req_body "location") w) as [[e|tt3] H3];
    rewrite (catch_bind_pure _ _ _ _ H3); [early_exit|].
  right. eexists. split.
  - apply catch_insert_rows. intros. apply broadcast_ret_rows.
  - unfold pending_unassigned. put_lookups. split; [reflexivity|].
    split; left; reflexivity.
Qed.

Lemma createCrash_pending a req_body now w :
  persists_only_pending TCrash w (snd (createCrash a req_body now w)).
Proof.
  unfold createCrash. validation_branches.
  right. eexists. split.
  - apply catch_raw_insert_rows. intros. reflexivity.
  - unfold pending_unassigned. put_lookups. split; [reflexivity|].
    split; left; reflexivity.
Qed.

Lemma createSos_pending a req_body now w :
  persists_only_pending TSos w (snd (createSos a req_body now w)).
Proof.
  unfold createSos. validation_branches.
  destruct (trim_or_null_pure "description" (prop req_body "description") w) as [[e|d] H];
    rewrite (catch_bind_pure _ _ _ _ H); [early_exit|].
  right. eexists. split.
  - apply catch_insert_rows. intros. reflexivity.
  - unfold pending_unassigned. put_lookups. split; [reflexivity|].
    split; left; reflexivity.
Qed.

(** C4: every create handler (POST /alerts, POST /crash, POST /sos), for
    every actor and every request body, a [status] field included, either
    persists nothing or persists exactly one new row, and that row has
    status [pending] and no vehicle or responder assigned. *)
Theorem create_yields_pending a req_body now w :
  persists_only_pending TAlerts w (snd (createAlert a req_body w)) /\
  persists_only_pending TCrash w (snd (createCrash a req_body now w)) /\
  persists_only_pending TSos w (snd (createSos a req_body now w)).
Proof.
  split; [apply createAlert_pending|split; [apply createCrash_pending|apply createSos_pending]].
Qed.

Example create_ignores_body_status :
  alert_col (snd (createAlert userA
                    {[ "alert_type" := JStr "medical"; "severity" := JStr "high";
                       "title" := JStr " Fall "; "location" := JStr "Main St";
                       "status" := JStr "resolved" ]} w0)) 2 "status"
  = Some (JStr "pending").
Proof. vm_compute. reflexivity. Qed.

(** ** C10 *)

Lemma num_in_is_number v lo hi : num_in v lo hi = true -> is_number v = true.
Proof. destruct v as [|[]|]; simpl; congruence. Qed.

Lemma strict_eq_undef v : strict_eq v Undef = true -> v = Undef.
Proof. destruct v; simpl; congruence. Qed.

Lemma sos_after_validation a req_body now w :
  code (fst (catch_500
    (let* description_t := trim_or_null "description" (prop req_body "description") in
     let sosData :=
       put "user_id" (uid_json a)
       (put "type" (prop req_body "type")
       (put "description" description_t
       (put "latitude" (prop req_body "latitude")
       (put "longitude" (prop req_body "longitude")
       (put "status" (Json (JStr "pending"))
       (put "triggered_at" (Json (JStr now)) ∅)))))) in
     let* data := insert_single TSos sosData in
     ret (Reply 201 (PWrapped "SOS sent successfully" "sos" data))) w)) <> 400.
Proof.
  destruct (trim_or_null_pure "description" (prop req_body "description") w) as [[e|d] H];
    rewrite (catch_bind_pure _ _ _ _ H); [discriminate|].
  unfold catch_500, bind, insert_single. discriminate.
Qed.

(** C10: POST /crash answers 400 "Latitude and longitude are required"
    whenever the latitude or the longitude is falsy, 0 included, and
    writes nothing; POST /sos with a [type] rejects with 400 exactly the
    bodies whose latitude or longitude is undefined, not a number, or out
    of [-90, 90] / [-180, 180], so latitude 0 and longitude 0 pass. *)
Theorem coordinate_validation a req_body now w :
  ((truthy (prop req_body "latitude") = false \/ truthy (prop req_body "longitude") = false) ->
   createCrash a req_body now w
   = (Reply 400 (PMessage "Latitude and longitude are required"), w)) /\
  (truthy (prop req_body "type") = true ->
   (code (fst (createSos a req_body now w)) = 400 <->
    num_in (prop req_body "latitude") (-90) 90 && num_in (prop req_body "longitude") (-180) 180
    = false)).
Proof.
  split.
  - intros Hf. unfold createCrash, catch_500_raw.
    destruct Hf as [-> | ->]; [reflexivity|]. rewrite orb_true_r. reflexivity.
  - intros Ht. unfold createSos at 1. rewrite Ht. cbn [negb orb].
    set (lat := prop req_body "latitude"). set (lon := prop req_body "longitude").
    pose proof (num_in_is_number lat (-90) 90) as I1.
    pose proof (num_in_is_number lon (-180) 180) as I2.
    destruct (strict_eq lat Undef) eqn:E1.
    { apply strict_eq_undef in E1. rewrite E1. split; reflexivity. }
    destruct (strict_eq lon Undef) eqn:E2.
    { apply strict_eq_undef in E2. rewrite E2, andb_false_r. split; reflexivity. }
    cbn [orb].
    destruct (is_number lat), (num_in lat (-90) 90), (is_number lon), (num_in lon (-180) 180);
      cbn [negb orb andb]; try (split; reflexivity);
      try (specialize (I1 eq_refl); discriminate);
      try (specialize (I2 eq_refl); discriminate).
    split; [intros Hc; exfalso; exact (sos_after_validation a req_body now w Hc) | discriminate].
Qed.

Example sos_accepts_zero_zero :
  code (fst (createSos userA {[ "type" := JStr "medical"; "latitude" := num 0;
                                "longitude" := num 0 ]} t1 w0)) = 201.
Proof. vm_compute. reflexivity. Qed.

Example crash_rejects_zero_latitude :
  fst (createCrash userA {[ "latitude" := num 0; "longitude" := num 121 ]} t1 w0)
  = Reply 400 (PMessage "Latitude and longitude are required").
Proof. vm_compute. reflexivity. Qed.

(** ** C6 *)

Lemma In_insert_desc {A} (key : A -> string) x y l :
  In y (insert_desc key x l) <-> x = y \/ In y l.
Proof.
  induction l as [|z l IH]; simpl.
  - tauto.
  - destruct (String.leb (key z) (key x)); simpl; [tauto|]. rewrite IH. tauto.
Qed.

Lemma In_sort_desc {A} (key : A -> string) y l : In y (sort_desc key l) <-> In y l.
Proof.
  induction l as [|x l IH]; simpl; [tauto|]. rewrite In_insert_desc, IH. tauto.
Qed.

Lemma In_select_where rs fs r : In r (select_where rs fs) -> forallb (filter_ok r) fs = true.
Proof. unfold select_where. intros H. apply filter_In in H. tauto. Qed.

Lemma In_js_slice {A} (l : list A) st en x : In x (js_slice l st en) -> In x l.
Proof.
  unfold js_slice. intros H.
  set (n := Z.to_nat _) in H. set (m := Z.to_nat _) in H.
  rewrite <- (firstn_skipn m l). apply in_or_app. right.
  rewrite <- (firstn_skipn n (skipn m l)). apply in_or_app. left. exact H.
Qed.

Lemma db_eq_owned a r :
  db_eq (r !! "user_id") (JNum (inject_Z (uid a))) = true -> owned a r = true.
Proof.
  unfold owned, prop, uid_json. destruct (r !! "user_id") as [[]|]; simpl; congruence.
Qed.

Lemma user_filter_owned a r fs :
  In (FEq "user_id" (JNum (inject_Z (uid a)))) fs ->
  forallb (filter_ok r) fs = true -> owned a r = true.
Proof.
  intros Hin H. rewrite forallb_forall in H. apply db_eq_owned. exact (H _ Hin).
Qed.

(** C6: for an actor of role [user], GET /alerts returns only rows whose
    [user_id] is the actor's id, GET /allAlerts returns only entries built
    from such rows, GET /alerts/:id returns a row only if it is the
    actor's, and on an existing row of another user answers 403. *)
Theorem user_sees_only_own a q w :
  role a = "user" ->
  (exists rs, fst (listAlerts a q w) = Reply 200 (PRows rs) /\ Forall (fun r => owned a r = true) rs) /\
  (forall pg total lim off n, fst (listIncidents a q w) = Reply 200 (PPage pg total lim off n) ->
     Forall (fun i => owned a (data i) = true /\ strict_eq (userId i) (uid_json a) = true) pg) /\
  (forall id r, fst (getAlert a id w) = Reply 200 (PRow r) -> owned a r = true) /\
  (forall id r, rows (alerts w) !! id = Some r -> owned a r = false ->
     fst (getAlert a id w) = Reply 403 (PMessage "Access denied")).
Proof.
  intros Hrole. split; [|split; [|split]].
  - eexists. split; [reflexivity|]. apply List.Forall_forall. intros r Hin.
    unfold order_desc in Hin. apply In_sort_desc, In_select_where in Hin.
    rewrite Hrole in Hin. cbn [String.eqb Ascii.eqb Bool.eqb] in Hin.
    eapply user_filter_owned; [|exact Hin]. rewrite !in_app_iff. simpl. tauto.
  - intros pg total lim off n H.
    cbv beta iota zeta delta [listIncidents catch_500_raw] in H. rewrite Hrole in H.
    cbn [fst String.eqb Ascii.eqb Bool.eqb] in H. injection H as <- _ _ _ _.
    apply List.Forall_forall. intros i Hi.
    apply In_js_slice, In_sort_desc, in_app_or in Hi.
    destruct Hi as [Hi | Hi];
      match type of Hi with In _ (if ?c then _ else _) => destruct c; [|contradiction] end;
      apply in_map_iff in Hi as [r [<- Hr]]; unfold order_desc in Hr;
      apply In_sort_desc, In_select_where in Hr; cbn [data userId to_item];
      (assert (Ho : owned a r = true)
        by (eapply user_filter_owned; [|exact Hr]; rewrite ?in_app_iff; simpl; tauto));
      split; exact Ho.
  - intros id r. unfold getAlert, catch_500, bind, select_single. cbn [get_table].
    destruct (rows (alerts w) !! id) as [r0|]; [|discriminate].
    rewrite Hrole. unfold owned.
    destruct (strict_eq (prop r0 "user_id") (uid_json a)) eqn:E; cbn; intros H;
      [injection H as <-; exact E | discriminate].
  - intros id r Hr Ho. unfold getAlert, catch_500, bind, select_single. cbn [get_table].
    rewrite Hr, Hrole. unfold owned in Ho. rewrite Ho. reflexivity.
Qed.

(** ** C5 *)

(** C5: an admin's PUT /alerts/:id with body [{ user_id: 11 }] moves
    alert 1 from user 10 to user 11 and answers 200. *)
Lemma updateAlert_rewrites_owner :
  alert_col w0 1 "user_id" = Some (num 10) /\
  code (fst (updateAlert admin 1 {[ "user_id" := num 11 ]} t1 w0)) = 200 /\
  alert_col (snd (updateAlert admin 1 {[ "user_id" := num 11 ]} t1 w0)) 1 "user_id"
  = Some (num 11).
Proof. vm_compute. repeat split. Qed.

(** The sibling PUT /crash/:id deletes [user_id] from the body first, so
    a crash event keeps its owner. *)
Lemma updateCrash_keeps_owner a id req_body w r r' :
  rows (crash_events w) !! id = Some r ->
  rows (crash_events (snd (updateCrash a id req_body w))) !! id = Some r' ->
  r' !! "user_id" = r !! "user_id".
Proof.
  intros Hr Hr'. unfold updateCrash, catch_500_raw in Hr'. rewrite Hr in Hr'.
  destruct (String.eqb (role a) "user" && _); cbn in Hr'.
  - rewrite Hr in Hr'. congruence.
  - unfold bind, update_single in Hr'. cbn [get_table] in Hr'. rewrite Hr in Hr'.
    cbn in Hr'. rewrite lookup_insert_eq in Hr'. injection Hr' as <-.
    apply lookup_union_r.
    rewrite !lookup_delete_ne by discriminate. apply lookup_delete_eq.
Qed.

(** ** C7 *)

(** C7: PATCH /alerts/99/status by a dispatcher, with no alert 99 in the
    store, answers 500 with the client's single-row error, not 404. *)
Lemma updateStatus_absent_500 :
  updateStatus dispatcher 99 {[ "status" := JStr "resolved" ]} t1 w0
  = (Reply 500 (PMessage single_error), w0).
Proof. vm_compute. reflexivity. Qed.

(** The sibling PUT /crash/:id answers 404 on an absent id. *)
Lemma updateCrash_absent_404 a id req_body w :
  rows (crash_events w) !! id = None ->
  updateCrash a id req_body w = (Reply 404 (PMessage "Crash event not found"), w).
Proof. intros H. unfold updateCrash, catch_500_raw. rewrite H. reflexivity. Qed.

(** ** C8 *)

(** One PATCH /:id/status on an existing alert, as a change of the world:
    the alert row takes the patch, the vehicles follow [status_vehicles],
    and [status_effects] is appended to the log. *)
Lemma updateStatus_effects a id req_body s now w r :
  req_body !! "status" = Some (JStr s) ->
  existsb (String.eqb s) validStatuses = true ->
  role_in a ["admin"; "dispatcher"; "rescuer"] = true ->
  rows (alerts w) !! id = Some r ->
  let w' := snd (updateStatus a id req_body now w) in
  let p := status_patch s now ∪ r in
  alerts w' = mkTable (<[id := p]> (rows (alerts w))) (serial (alerts w)) /\
  crash_events w' = crash_events w /\ sos_requests w' = sos_requests w /\
  vehicles w' = status_vehicles s (prop r "assigned_vehicle_id") (vehicles w) /\
  io w' = io w /\
  log w' = log w ++ status_effects id s (prop r "assigned_vehicle_id") (io w) p.
Proof.
  intros Hs Hv Hr Hrow w' p. subst w' p.
  rewrite (updateStatus_run a id req_body s now w r Hs Hv Hr Hrow).
  rewrite prop_patch_union by apply status_patch_assigned.
  unfold status_vehicles, status_effects, status_patch.
  unfold catch_500, bind, broadcast, Socket.getIO.
  destruct (String.eqb s "responding" && _), (String.eqb s "resolved" && _);
    cbn [io alerts crash_events sos_requests vehicles log set_vehicles push_log set_table];
    (destruct (io w) as [|j|ref]; [|destruct (truthy (Json j))|]);
    cbn; rewrite <- ?app_assoc; repeat split.
Qed.

Lemma vehicle_set_idem v st vs :
  vehicle_set v st (vehicle_set v st vs) = vehicle_set v st vs.
Proof.
  unfold vehicle_set. destruct (as_key v) as [k|]; [|reflexivity].
  destruct (vs !! k) eqn:E; [|rewrite E; reflexivity].
  rewrite lookup_insert_eq. rewrite insert_insert_eq. reflexivity.
Qed.

Lemma status_vehicles_idem s v vs :
  status_vehicles s v (status_vehicles s v vs) = status_vehicles s v vs.
Proof.
  unfold status_vehicles.
  destruct (String.eqb s "responding") eqn:E1, (String.eqb s "resolved") eqn:E2;
    try (apply String.eqb_eq in E1; apply String.eqb_eq in E2; congruence);
    destruct (truthy v); cbn; rewrite ?vehicle_set_idem; reflexivity.
Qed.

Lemma status_patch_union_twice s now1 now2 (r : row) :
  status_patch s now2 ∪ (status_patch s now1 ∪ r) = status_patch s now2 ∪ r.
Proof.
  apply map_eq. intros k. rewrite !lookup_union. unfold status_patch.
  destruct (decide (k = "status")) as [->|H1].
  { rewrite !lookup_insert_eq. destruct (r !! "status"); reflexivity. }
  rewrite !lookup_insert_ne by congruence.
  destruct (decide (k = "updated_at")) as [->|H2].
  { rewrite !lookup_singleton_eq. destruct (r !! "updated_at"); reflexivity. }
  rewrite !lookup_singleton_ne by congruence. destruct (r !! k); reflexivity.
Qed.

(** Claim C8 (as stated: refuted). Repeating PATCH /:id/status with the
    alert's own status [responding] a minute later does not leave the
    incident as the first call left it: [updated_at] moves from [t2] to
    [t3]; and the second call repeats more than the vehicle write: the row
    write and the [alert:status_updated] broadcast come again. *)
Lemma updateStatus_twice_cex :
  let w := with_alert alert_responding in
  let w1 := snd (updateStatus rescuer 1 responding_body t2 w) in
  let w2 := snd (updateStatus rescuer 1 responding_body t3 w1) in
  prop alert_responding "status" = Json (JStr "responding") /\
  alert_col w1 1 "updated_at" = Some (JStr t2) /\
  alert_col w2 1 "updated_at" = Some (JStr t3) /\
  alert_col w2 1 "updated_at" <> alert_col w1 1 "updated_at" /\
  vehicles w2 = vehicles w1 /\
  List.filter (fun e => negb (is_vehicle_write e)) (new_effects w1 w2) <> [].
Proof.
  vm_compute. split; [reflexivity|]. split; [reflexivity|]. split; [reflexivity|].
  split; [discriminate|]. split; [reflexivity|discriminate].
Qed.

(** Claim C8 (amended). Calling PATCH /:id/status twice on an existing
    alert with the same valid status, the second time at [now2], leaves
    the vehicles as the first call left them and the alert row as a single
    call at [now2] would leave it (only [updated_at] differs from the row
    after the first call); the second call appends the effects of a whole
    call: the row write, the same vehicle write and another
    [alert:status_updated] broadcast. *)
Theorem updateStatus_twice a id req_body s now1 now2 w r :
  req_body !! "status" = Some (JStr s) ->
  existsb (String.eqb s) validStatuses = true ->
  role_in a ["admin"; "dispatcher"; "rescuer"] = true ->
  rows (alerts w) !! id = Some r ->
  let w1 := snd (updateStatus a id req_body now1 w) in
  let w2 := snd (updateStatus a id req_body now2 w1) in
  alerts w2 = alerts (snd (updateStatus a id req_body now2 w)) /\
  vehicles w2 = vehicles w1 /\
  log w2 = log w1 ++ status_effects id s (prop r "assigned_vehicle_id") (io w)
                       (status_patch s now2 ∪ r).
Proof.
  intros Hs Hv Hr Hrow w1 w2.
  pose proof (updateStatus_effects a id req_body s now1 w r Hs Hv Hr Hrow) as E1.
  pose proof (updateStatus_effects a id req_body s now2 w r Hs Hv Hr Hrow) as E3.
  cbv zeta in E1, E3. fold w1 in E1.
  destruct E1 as (Ha1 & _ & _ & Hv1 & Hi1 & Hl1).
  destruct E3 as (Ha3 & _).
  assert (Hrow1 : rows (alerts w1) !! id = Some (status_patch s now1 ∪ r)).
  { rewrite Ha1. cbn [rows]. apply lookup_insert_eq. }
  pose proof (updateStatus_effects a id req_body s now2 w1 _ Hs Hv Hr Hrow1) as E2.
  cbv zeta in E2. fold w2 in E2.
  destruct E2 as (Ha2 & _ & _ & Hv2 & _ & Hl2).
  rewrite prop_patch_union in Hv2, Hl2 by apply status_patch_assigned.
  rewrite status_patch_union_twice in Ha2, Hl2.
  split; [|split].
  - rewrite Ha2, Ha3, Ha1. cbn [rows serial]. rewrite insert_insert_eq. reflexivity.
  - rewrite Hv2, Hv1. apply status_vehicles_idem.
  - rewrite Hl2, Hi1. reflexivity.
Qed.

Lemma updateStatus_twice_witness :
  let w := with_alert alert_responding in
  let w1 := snd (updateStatus rescuer 1 responding_body t2 w) in
  let w2 := snd (updateStatus rescuer 1 responding_body t3 w1) in
  alerts w2 = alerts (snd (updateStatus rescuer 1 responding_body t3 w)) /\
  vehicles w2 = vehicles w1 /\
  log w2 = log w1 ++ status_effects 1 "responding" (Json (num 7)) (Obj 1)
                       (status_patch "responding" t3 ∪ alert_responding).
Proof.
  exact (updateStatus_twice rescuer 1 responding_body "responding" t2 t3
           (with_alert alert_responding) alert_responding
           eq_refl eq_refl eq_refl eq_refl).
Defined.

(** ** C9 *)

(** Claim C9 (as stated: refuted). [setIO(0)] stores a non-null value,
    yet [getIO] keeps throwing: its test is [!io], not [io == null]. *)
Lemma socket_falsy_cex :
  Json (num 0) <> Undef /\ Json (num 0) <> Json JNull /\
  Socket.getIO (Socket.setIO (Json (num 0)) Socket.initial)
  = inl "Socket.io not initialized"%string /\
  fst (broadcast "alert:new" ∅
         (mkWorld (alerts w0) empty_table empty_table (vehicles w0)
            (Socket.setIO (Json (num 0)) Socket.initial) []))
  = inl "Socket.io not initialized"%string.
Proof. vm_compute. split; [discriminate|]. split; [discriminate|]. split; reflexivity. Qed.

Lemma socket_run_gets x cs :
  truthy x = true -> Forall (eq Socket.CGet) cs ->
  Socket.run x cs = map (fun _ => inr x) cs.
Proof.
  intros Hx Hcs. induction Hcs as [|c cs Hc _ IH]; [reflexivity|].
  subst c. cbn. unfold Socket.getIO. rewrite Hx, IH. reflexivity.
Qed.

(** Claim C9 (amended). Before any [setIO], [getIO] throws
    "Socket.io not initialized". After [setIO(x)] with a truthy [x] (the
    Socket.io server object) every later [getIO] returns [x], and a
    broadcast from a handler no longer fails with that error; after
    [setIO(y)] with a falsy [y] ([0], [""], [false], [null]) [getIO]
    still throws it. *)
Theorem socket_lifecycle x s cs ev p w :
  truthy x = true -> Forall (eq Socket.CGet) cs -> io w = Socket.setIO x s ->
  Socket.getIO Socket.initial = inl "Socket.io not initialized"%string /\
  Socket.run s (Socket.CSet x :: cs) = map (fun _ => inr x) cs /\
  fst (broadcast ev p w) <> inl "Socket.io not initialized"%string /\
  (forall y, truthy y = false ->
     Socket.getIO (Socket.setIO y s) = inl "Socket.io not initialized"%string).
Proof.
  intros Hx Hcs Hio. split; [reflexivity|]. split.
  { cbn [Socket.run Socket.setIO]. apply socket_run_gets; assumption. }
  split.
  - unfold broadcast, Socket.getIO. rewrite Hio. unfold Socket.setIO. rewrite Hx.
    cbn [negb]. destruct x; cbn [fst]; discriminate.
  - intros y Hy. unfold Socket.getIO, Socket.setIO. rewrite Hy. reflexivity.
Qed.

Lemma socket_lifecycle_witness :
  Socket.getIO Socket.initial = inl "Socket.io not initialized"%string /\
  Socket.run Socket.initial [Socket.CSet (Obj 1); Socket.CGet; Socket.CGet]
  = [inr (Obj 1); inr (Obj 1)] /\
  fst (broadcast "alert:new" ∅ w0) <> inl "Socket.io not initialized"%string /\
  (forall y, truthy y = false ->
     Socket.getIO (Socket.setIO y Socket.initial) = inl "Socket.io not initialized"%string).
Proof.
  apply (socket_lifecycle (Obj 1) Socket.initial [Socket.CGet; Socket.CGet] "alert:new" ∅ w0);
    [reflexivity | repeat constructor | reflexivity].
Defined.

(** ** Instances of the theorems on the sample worlds *)

Lemma wf_with_alert r : wf_vehicle_keys (with_alert r).
Proof.
  intros k st H. cbn in H.
  apply lookup_insert_Some in H as [[<- _]|[_ H]]; [lia|].
  apply lookup_singleton_Some in H as [<- _]. lia.
Qed.

Lemma updateStatus_no_transition_guard_witness :
  alert_col (snd (updateStatus dispatcher 1 {[ "status" := JStr "pending" ]} t1
                    (with_alert alert_resolved))) 1 "status" = Some (JStr "pending") /\
  (forall ref, io (with_alert alert_resolved) = Obj ref ->
     code (fst (updateStatus dispatcher 1 {[ "status" := JStr "pending" ]} t1
                  (with_alert alert_resolved))) = 200).
Proof.
  apply (updateStatus_no_transition_guard dispatcher 1 {[ "status" := JStr "pending" ]}
           "pending" t1 (with_alert alert_resolved) alert_resolved); reflexivity.
Defined.

Lemma updateStatus_vehicle_sync_witness :
  let w := with_alert alert_responding in
  let w' := snd (updateStatus rescuer 1 responding_body t2 w) in
  (forall v st0, alert_responding !! "assigned_vehicle_id" = Some (num v) ->
     vehicles w !! v = Some st0 -> wf_vehicle_keys w ->
     ("responding" = "responding" -> vehicles w' !! v = Some "responding") /\
     ("responding" = "resolved" -> vehicles w' !! v = Some "available")) /\
  (alert_responding !! "assigned_vehicle_id" = None
   \/ alert_responding !! "assigned_vehicle_id" = Some JNull ->
     vehicles w' = vehicles w /\
     exists fresh, log w' = log w ++ fresh
                   /\ forallb (fun e => negb (is_vehicle_write e)) fresh = true).
Proof.
  apply (updateStatus_vehicle_sync rescuer 1 responding_body "responding" t2
           (with_alert alert_responding) alert_responding); reflexivity.
Defined.

Lemma assign_vehicle_handover_witness :
  let w := with_alert alert_responding in
  let b : row := {[ "vehicle_id" := num 8 ]} in
  let w' := snd (assign dispatcher 1 b t2 w) in
  (forall v1 v2 s1 s2,
     alert_responding !! "assigned_vehicle_id" = Some (num v1) ->
     b !! "vehicle_id" = Some (num v2) ->
     v1 <> v2 -> vehicles w !! v1 = Some s1 -> vehicles w !! v2 = Some s2 ->
     vehicles w' !! v1 = Some "available" /\ vehicles w' !! v2 = Some "assigned" /\
     List.filter is_vehicle_write (log w')
     = List.filter is_vehicle_write (log w)
       ++ [VehicleWrite (Json (num v1)) "available"; VehicleWrite (Json (num v2)) "assigned"]) /\
  (forall v s0,
     alert_responding !! "assigned_vehicle_id" = Some (num v) ->
     b !! "vehicle_id" = Some (num v) ->
     vehicles w !! v = Some s0 ->
     vehicles w' !! v = Some "assigned" /\
     List.filter is_vehicle_write (log w')
     = List.filter is_vehicle_write (log w) ++ [VehicleWrite (Json (num v)) "assigned"]).
Proof.
  apply (assign_vehicle_handover dispatcher 1 {[ "vehicle_id" := num 8 ]} t2
           (with_alert alert_responding) alert_responding);
    [reflexivity | reflexivity | apply wf_with_alert].
Defined.

Lemma coordinate_validation_witness :
  createCrash userA {[ "latitude" := num 0; "longitude" := num 121 ]} t1 w0
  = (Reply 400 (PMessage "Latitude and longitude are required"), w0) /\
  (code (fst (createSos userA {[ "type" := JStr "medical"; "latitude" := num 0;
                                 "longitude" := num 0 ]} t1 w0)) = 400 <->
   num_in (prop {[ "type" := JStr "medical"; "latitude" := num 0; "longitude" := num 0 ]}
             "latitude") (-90) 90
   && num_in (prop {[ "type" := JStr "medical"; "latitude" := num 0; "longitude" := num 0 ]}
                "longitude") (-180) 180 = false).
Proof.
  split.
  - apply (proj1 (coordinate_validation userA {[ "latitude" := num 0; "longitude" := num 121 ]} t1 w0)).
    left. reflexivity.
  - apply (proj2 (coordinate_validation userA {[ "type" := JStr "medical"; "latitude" := num 0;
                                                 "longitude" := num 0 ]} t1 w0)).
    reflexivity.
Defined.

Lemma user_sees_only_own_witness :
  (exists rs, fst (listAlerts userA ∅ w0) = Reply 200 (PRows rs)
              /\ Forall (fun r => owned userA r = true) rs) /\
  (forall pg total lim off n, fst (listIncidents userA ∅ w0) = Reply 200 (PPage pg total lim off n) ->
     Forall (fun i => owned userA (data i) = true
                      /\ strict_eq (userId i) (uid_json userA) = true) pg) /\
  (forall id r, fst (getAlert userA id w0) = Reply 200 (PRow r) -> owned userA r = true) /\
  (forall id r, rows (alerts w0) !! id = Some r -> owned userA r = false ->
     fst (getAlert userA id w0) = Reply 403 (PMessage "Access denied")).
Proof. apply (user_sees_only_own userA ∅ w0). reflexivity. Defined.

(** * Further handlers *)

(** ** DELETE /alerts/:id *)

(** X1: only an admin may delete an alert; anyone else gets 403 and
    nothing changes. *)
Theorem deleteAlert_forbidden a id w :
  role a <> "admin" ->
  deleteAlert a id w = (Reply 403 (PMessage "Access denied. Admin only."), w).
Proof.
  intros H. unfold deleteAlert, catch_500.
  destruct (String.eqb_spec (role a) "admin"); [contradiction|reflexivity].
Qed.

(** X2: an admin's delete, once the notifier is up, answers 200 whether or
    not the alert exists (there is no 404): the row is gone, nothing else
    in the store changes, and [alert:deleted] is broadcast with the id as
    a string. *)
Theorem deleteAlert_ok a id w ref :
  role a = "admin" -> io w = Obj ref ->
  deleteAlert a id w
  = (Reply 200 (PMessage "Alert deleted successfully"),
     mkWorld (mkTable (delete id (rows (alerts w))) (serial (alerts w)))
       (crash_events w) (sos_requests w) (vehicles w) (io w)
       (log w ++ [Emit "alert:deleted" {[ "id" := JStr (dec_Z id) ]}])).
Proof.
  intros Ha Hio. unfold deleteAlert, catch_500. rewrite Ha. cbv [negb String.eqb Ascii.eqb Bool.eqb].
  cbv iota beta. unfold bind, delete_rows, broadcast, Socket.getIO. cbn [get_table set_table io].
  rewrite Hio. reflexivity.
Qed.

(** X3: without an initialized notifier an admin's delete answers 500
    "Socket.io not initialized", yet the row is deleted all the same. *)
Theorem deleteAlert_no_rollback a id w :
  role a = "admin" -> truthy (io w) = false ->
  deleteAlert a id w
  = (Reply 500 (PMessage "Socket.io not initialized"),
     mkWorld (mkTable (delete id (rows (alerts w))) (serial (alerts w)))
       (crash_events w) (sos_requests w) (vehicles w) (io w) (log w)).
Proof.
  intros Ha Hio. unfold deleteAlert, catch_500. rewrite Ha. cbv [negb String.eqb Ascii.eqb Bool.eqb].
  cbv iota beta. unfold bind, delete_rows, broadcast, Socket.getIO. cbn [get_table set_table io].
  rewrite Hio. reflexivity.
Qed.

(** ** A missing notifier does not undo writes *)

(** X4: a valid PATCH /alerts/:id/status while the notifier is not
    initialized answers 500 "Socket.io not initialized", but the new
    status is stored and the vehicle updates are done. *)
Theorem updateStatus_no_rollback a id req_body s now w r :
  req_body !! "status" = Some (JStr s) ->
  existsb (String.eqb s) validStatuses = true ->
  role_in a ["admin"; "dispatcher"; "rescuer"] = true ->
  rows (alerts w) !! id = Some r ->
  truthy (io w) = false ->
  fst (updateStatus a id req_body now w) = Reply 500 (PMessage "Socket.io not initialized") /\
  alert_col (snd (updateStatus a id req_body now w)) id "status" = Some (JStr s) /\
  vehicles (snd (updateStatus a id req_body now w))
  = status_vehicles s (prop r "assigned_vehicle_id") (vehicles w).
Proof.
  intros Hs Hv Hr Hrow Hio.
  pose proof (updateStatus_effects a id req_body s now w r Hs Hv Hr Hrow) as E.
  cbv zeta in E. destruct E as (Ha & _ & _ & Hveh & _ & _).
  split; [|split].
  - rewrite (updateStatus_run a id req_body s now w r Hs Hv Hr Hrow).
    unfold catch_500, bind, broadcast, Socket.getIO.
    destruct (String.eqb s "responding" && _), (String.eqb s "resolved" && _);
      cbn [io set_vehicles push_log set_table]; rewrite Hio; reflexivity.
  - unfold alert_col. rewrite Ha. cbn [rows]. rewrite lookup_insert_eq. cbn.
    unfold status_patch. rewrite lookup_union, lookup_insert_eq.
    destruct (r !! "status"); reflexivity.
  - exact Hveh.
Qed.

(** X5: while the notifier is not initialized, POST /alerts never answers
    201; when it does store the new alert, under the next serial id, it
    still answers 500 "Socket.io not initialized". *)
Theorem createAlert_no_rollback a req_body w :
  truthy (io w) = false ->
  code (fst (createAlert a req_body w)) <> 201 /\
  (rows (alerts (snd (createAlert a req_body w))) = rows (alerts w) \/
   (fst (createAlert a req_body w) = Reply 500 (PMessage "Socket.io not initialized") /\
    exists r, rows (alerts (snd (createAlert a req_body w)))
              = <[serial (alerts w) := r]> (rows (alerts w)))).
Proof.
  intros Hio. unfold createAlert.
  repeat match goal with
         | |- context [catch_500 (if ?c then _ else _) _] =>
             destruct c; [split; [discriminate | left; reflexivity]|]
         end.
  destruct (trim_pure "title" (prop req_body "title") w) as [[e|tt1] H1];
    rewrite (catch_bind_pure _ _ _ _ H1); [split; [discriminate | left; reflexivity]|].
  destruct (trim_or_null_pure "description" (prop req_body "description") w) as [[e|tt2] H2];
    rewrite (catch_bind_pure _ _ _ _ H2); [split; [discriminate | left; reflexivity]|].
  destruct (trim_pure "location" (prop req_body "location") w) as [[e|tt3] H3];
    rewrite (catch_bind_pure _ _ _ _ H3); [split; [discriminate | left; reflexivity]|].
  unfold catch_500, bind, insert_single, broadcast, Socket.getIO.
  cbn [get_table set_table push_log io alerts rows serial fst snd]. rewrite Hio.
  cbn [negb fst snd code]. split; [discriminate|]. right. split; [reflexivity|].
  eexists. reflexivity.
Qed.

(** ** PUT, PATCH and DELETE /crash/:id *)

Lemma patchCrash_updateCrash a id req_body w :
  patchCrash a id req_body w = updateCrash a id req_body w.
Proof. reflexivity. Qed.

Lemma crash_strip_lookup (req_body : row) k :
  delete "triggered_at" (delete "updated_at" (delete "created_at"
    (delete "event_type" (delete "user_id" (delete "id" req_body))))) !! k
  = if bool_decide (k ∈ crash_protected) then None else req_body !! k.
Proof.
  unfold crash_protected.
  case_bool_decide as Hk.
  - rewrite !elem_of_cons, elem_of_nil in Hk.
    destruct Hk as [->|[->|[->|[->|[->|[->|[]]]]]]];
      repeat first [rewrite lookup_delete_eq; reflexivity
                   | rewrite lookup_delete_ne by discriminate].
  - rewrite !elem_of_cons, elem_of_nil in Hk.
    rewrite !lookup_delete_ne by (intros Heq; apply Hk; rewrite <- Heq; tauto). reflexivity.
Qed.

(** X6: PUT and PATCH /crash/:id behave alike.  On an existing event they
    either refuse (the row stays as it was) or write the body over the
    row, except for [id], [user_id], [event_type], [created_at],
    [updated_at] and [triggered_at], which keep their stored values; no
    other row or table changes. *)
Theorem crash_update_frame a id req_body w r :
  rows (crash_events w) !! id = Some r ->
  patchCrash a id req_body w = updateCrash a id req_body w /\
  let w' := snd (updateCrash a id req_body w) in
  (exists r', rows (crash_events w') !! id = Some r' /\
     (r' = r \/
      forall k, r' !! k = if bool_decide (k ∈ crash_protected) then r !! k
                          else match req_body !! k with Some j => Some j | None => r !! k end)) /\
  (forall id', id' <> id -> rows (crash_events w') !! id' = rows (crash_events w) !! id') /\
  alerts w' = alerts w /\ sos_requests w' = sos_requests w /\ vehicles w' = vehicles w.
Proof.
  intros Hr. split; [reflexivity|]. cbv zeta.
  unfold updateCrash, catch_500_raw. rewrite Hr.
  destruct (String.eqb (role a) "user" && _).
  - cbn [snd]. split; [exists r; split; [exact Hr | left; reflexivity]|].
    split; [reflexivity|]. repeat split.
  - unfold bind, update_single. cbn [get_table]. rewrite Hr. cbn [snd set_table push_log
      crash_events alerts sos_requests vehicles rows].
    split; [|split; [|repeat split]].
    + eexists. split; [apply lookup_insert_eq|]. right. intros k.
      rewrite lookup_union, crash_strip_lookup.
      destruct (bool_decide _); [destruct (r !! k); reflexivity|].
      destruct (req_body !! k), (r !! k); reflexivity.
    + intros id' Hne. apply lookup_insert_ne. congruence.
Qed.

(** X7: the guards of PUT, PATCH and DELETE /crash/:id.  An id with no
    event answers 404, and an event of another user, asked for by a
    [user], answers 403; in both cases the store is left as it was. *)
Theorem crash_guards a id req_body w :
  (rows (crash_events w) !! id = None ->
     updateCrash a id req_body w = (Reply 404 (PMessage "Crash event not found"), w) /\
     patchCrash a id req_body w = (Reply 404 (PMessage "Crash event not found"), w) /\
     deleteCrash a id w = (Reply 404 (PMessage "Crash event not found"), w)) /\
  (forall r, rows (crash_events w) !! id = Some r -> role a = "user" ->
     strict_eq (prop r "user_id") (uid_json a) = false ->
     updateCrash a id req_body w
     = (Reply 403 (PMessage "You do not have permission to update this event"), w) /\
     patchCrash a id req_body w
     = (Reply 403 (PMessage "You do not have permission to update this event"), w) /\
     deleteCrash a id w
     = (Reply 403 (PMessage "You do not have permission to delete this event"), w)).
Proof.
  split.
  - intros H. unfold updateCrash, patchCrash, deleteCrash, catch_500_raw. rewrite H.
    repeat split.
  - intros r H Hu Ho. unfold updateCrash, patchCrash, deleteCrash, catch_500_raw.
    rewrite H, Hu, Ho. repeat split.
Qed.

(** X8: DELETE /crash/:id on an existing event, by its owner or by a role
    other than [user], removes exactly that row and answers 200; it sends
    no notification. *)
Theorem deleteCrash_ok a id w r :
  rows (crash_events w) !! id = Some r ->
  role a <> "user" \/ strict_eq (prop r "user_id") (uid_json a) = true ->
  deleteCrash a id w
  = (Reply 200 (PMessage "Crash event deleted"),
     mkWorld (alerts w) (mkTable (delete id (rows (crash_events w))) (serial (crash_events w)))
       (sos_requests w) (vehicles w) (io w) (log w)).
Proof.
  intros H Hok. unfold deleteCrash, catch_500_raw. rewrite H.
  replace (String.eqb (role a) "user" && negb (strict_eq (prop r "user_id") (uid_json a)))
    with false.
  - reflexivity.
  - destruct Hok as [Hu|Ho].
    + apply String.eqb_neq in Hu. rewrite Hu. reflexivity.
    + rewrite Ho, andb_false_r. reflexivity.
Qed.

(** ** GET /reports/summary *)

(** X9: the summary endpoint never succeeds: whatever the actor, filters
    and store, it answers 500 "query.group is not a function" and changes
    nothing. *)
Theorem summary_fails a q w :
  summary a q w = (Reply 500 (PMessage "query.group is not a function"), w).
Proof. reflexivity. Qed.

(** ** POST /geolocation/reverse *)

Lemma jset_cons k v x o : jset k v (x :: o) = x :: jset k v o.
Proof. destruct v; reflexivity. Qed.

(** X10: a body without [latitude] or without [longitude] answers 400
    before the geocoding service is asked, whatever it would answer. *)
Theorem reverse_missing num_str req_body resp :
  prop req_body "latitude" = Undef \/ prop req_body "longitude" = Undef ->
  reverseGeocode num_str req_body resp
  = GeoReply 400 [("success", JBool false);
                  ("message", JStr "Latitude and longitude are required")].
Proof.
  intros [H|H]; unfold reverseGeocode; rewrite H; cbn [strict_eq orb].
  - reflexivity.
  - rewrite orb_true_r. reflexivity.
Qed.


Lemma out_of_range_num q lo hi :
  out_of_range (Some (Finite q)) lo hi = false <-> (lo <= q <= hi)%Q.
Proof.
  unfold out_of_range. rewrite negb_false_iff, andb_true_iff, !Qle_bool_iff. reflexivity.
Qed.

(** X12: for coordinates sent as JSON numbers the geocoder answers 400
    exactly when the latitude is outside [[-90, 90]] or the longitude
    outside [[-180, 180]], and 200 otherwise, whatever the service does. *)
Theorem reverse_numbers num_str req_body resp la lo :
  req_body !! "latitude" = Some (JNum la) ->
  req_body !! "longitude" = Some (JNum lo) ->
  (geo_code (reverseGeocode num_str req_body resp) = 400
   <-> ~ ((-90 <= la <= 90)%Q /\ (-180 <= lo <= 180)%Q)) /\
  (geo_code (reverseGeocode num_str req_body resp) = 200
   <-> ((-90 <= la <= 90)%Q /\ (-180 <= lo <= 180)%Q)).
Proof.
  intros Hla Hlo. unfold reverseGeocode, prop. rewrite Hla, Hlo. cbn [strict_eq orb parseFloat_val].
  destruct (out_of_range (Some (Finite la)) (-90) 90) eqn:E1,
           (out_of_range (Some (Finite lo)) (-180) 180) eqn:E2;
    cbn [orb geo_code].
  1-3: assert (HnP : ~ ((-90 <= la <= 90)%Q /\ (-180 <= lo <= 180)%Q))
         by (intros [H1 H2]; apply out_of_range_num in H1; apply out_of_range_num in H2;
             congruence);
       split; split; intros; try discriminate; try reflexivity; tauto.
  assert (Hin : (-90 <= la <= 90)%Q /\ (-180 <= lo <= 180)%Q)
    by (split; apply out_of_range_num; assumption).
  destruct resp as [msg|d].
  - rewrite !jset_cons. cbn [geo_code]. split; split; tauto || discriminate || (intros; reflexivity).
  - repeat match goal with |- context [if ?c then _ else _] => destruct c end;
      rewrite ?jset_cons; cbn [geo_code]; split; split; tauto || discriminate || (intros; reflexivity).
Qed.


(** ** Decimal digits, printed and read back *)
























(** ** Instances of the further theorems on the sample worlds *)

Lemma deleteAlert_forbidden_witness :
  deleteAlert dispatcher 1 w0 = (Reply 403 (PMessage "Access denied. Admin only."), w0).
Proof. apply deleteAlert_forbidden. cbv. discriminate. Defined.

Lemma deleteAlert_ok_witness :
  fst (deleteAlert admin 1 w0) = Reply 200 (PMessage "Alert deleted successfully") /\
  rows (alerts (snd (deleteAlert admin 1 w0))) !! 1 = None /\
  log (snd (deleteAlert admin 1 w0)) = [Emit "alert:deleted" {[ "id" := JStr "1" ]}].
Proof.
  rewrite (deleteAlert_ok admin 1 w0 1) by reflexivity.
  split; [reflexivity|]. split; vm_compute; reflexivity.
Defined.

Lemma deleteAlert_no_rollback_witness :
  fst (deleteAlert admin 1 (with_alert_down alert1))
  = Reply 500 (PMessage "Socket.io not initialized") /\
  rows (alerts (snd (deleteAlert admin 1 (with_alert_down alert1)))) !! 1 = None.
Proof.
  rewrite (deleteAlert_no_rollback admin 1 (with_alert_down alert1)) by reflexivity.
  split; vm_compute; reflexivity.
Defined.

Lemma updateStatus_no_rollback_witness :
  fst (updateStatus rescuer 1 responding_body t2 (with_alert_down alert_responding))
  = Reply 500 (PMessage "Socket.io not initialized") /\
  alert_col (snd (updateStatus rescuer 1 responding_body t2 (with_alert_down alert_responding)))
    1 "status" = Some (JStr "responding") /\
  vehicles (snd (updateStatus rescuer 1 responding_body t2 (with_alert_down alert_responding)))
  = status_vehicles "responding" (prop alert_responding "assigned_vehicle_id")
      (vehicles (with_alert_down alert_responding)).
Proof.
  apply (updateStatus_no_rollback rescuer 1 responding_body "responding" t2
           (with_alert_down alert_responding) alert_responding); reflexivity.
Defined.

Lemma createAlert_no_rollback_witness :
  code (fst (createAlert userA coords_body (with_alert_down alert1))) <> 201.
Proof.
  refine (proj1 (createAlert_no_rollback userA coords_body (with_alert_down alert1) _)).
  reflexivity.
Defined.

Lemma crash_update_frame_witness :
  patchCrash userA 5 crash_body w_crash = updateCrash userA 5 crash_body w_crash /\
  alerts (snd (updateCrash userA 5 crash_body w_crash)) = alerts w_crash.
Proof.
  destruct (crash_update_frame userA 5 crash_body w_crash crash1) as [H1 H2];
    [reflexivity|].
  split; [exact H1|]. apply H2.
Defined.

Lemma crash_guards_witness :
  deleteCrash userA 9 w_crash = (Reply 404 (PMessage "Crash event not found"), w_crash) /\
  deleteCrash userB 5 w_crash
  = (Reply 403 (PMessage "You do not have permission to delete this event"), w_crash).
Proof.
  destruct (crash_guards userA 9 crash_body w_crash) as [H1 _].
  destruct (crash_guards userB 5 crash_body w_crash) as [_ H2].
  split.
  - apply H1. reflexivity.
  - apply (H2 crash1); reflexivity.
Defined.

Lemma deleteCrash_ok_witness :
  fst (deleteCrash userA 5 w_crash) = Reply 200 (PMessage "Crash event deleted") /\
  rows (crash_events (snd (deleteCrash userA 5 w_crash))) !! 5 = None.
Proof.
  rewrite (deleteCrash_ok userA 5 w_crash crash1); [| reflexivity | right; reflexivity].
  split; vm_compute; reflexivity.
Defined.

Lemma reverse_missing_witness :
  reverseGeocode (fun _ => EmptyString) {[ "latitude" := num 14 ]} (inl "timeout")
  = GeoReply 400 [("success", JBool false);
                  ("message", JStr "Latitude and longitude are required")].
Proof. apply reverse_missing. right. reflexivity. Defined.

Lemma reverse_numbers_witness :
  (geo_code (reverseGeocode (fun _ => EmptyString) coords_body (inl "timeout")) = 400
   <-> ~ ((-90 <= inject_Z 14 <= 90)%Q /\ (-180 <= inject_Z 121 <= 180)%Q)) /\
  (geo_code (reverseGeocode (fun _ => EmptyString) coords_body (inl "timeout")) = 200
   <-> ((-90 <= inject_Z 14 <= 90)%Q /\ (-180 <= inject_Z 121 <= 180)%Q)).
Proof. apply reverse_numbers; reflexivity. Defined.

